(** * SaaS dashboard: data shaping of the renderer and clipping of the generator

    A shallow embedding of [dashboard.py] and [data_gen.py].  Tables are
    lists of records, one record per row of the data frame; a missing
    string cell (pandas NaN) is [None]. *)

From Stdlib Require Import ZArith QArith Qround Qabs Qminmax Qpower Qfield Lqa.
From Stdlib Require Import String Ascii List Lia.
From stdpp Require Import base decidable option list gmap sets strings.

Set Warnings "-clear-no-such-hyp".

Open Scope string_scope.
Open Scope list_scope.

(* ===================================================================== *)
(** * Definitions *)
(* ===================================================================== *)

(** ** Numbers

    A numeric cell is a finite binary64 value, represented by its exact
    rational value (NaN, the infinities and the sign of zero have no
    representation).  Comparisons, [abs], [max], [min] and truncation are
    exact on such values; sums, products and quotients are rounded by
    [fl]. *)

Definition Qltb (a b : Q) : bool := negb (Qle_bool b a).

Definition pow2 (k : Z) : Q := (2 ^ k)%Q.
Definition pow10 (k : Z) : Q := (10 ^ k)%Q.

(** Nearest integer, ties to the even one. *)
Definition rne (q : Q) : Z :=
  let f := Qfloor q in
  match (q - inject_Z f ?= 1 # 2)%Q with
  | Lt => f
  | Gt => (f + 1)%Z
  | Eq => if Z.even f then f else (f + 1)%Z
  end.

(** Binary exponent of [q > 0]: [2 ^ ilog2 q <= q < 2 ^ (ilog2 q + 1)]. *)
Definition ilog2 (q : Q) : Z :=
  let e0 := (Z.log2 (Qnum q) - Z.log2 (Zpos (Qden q)))%Z in
  if Qltb q (pow2 e0) then (e0 - 1)%Z else e0.

(** Rounding of a real result to binary64: 53 significant bits, spacing
    never below [2 ^ -1074], nearest with ties to even.  (Results beyond
    the largest double would be infinite; none of the quantities below
    comes near that.) *)
Definition fl (q : Q) : Q :=
  if Qeq_bool q 0 then 0%Q
  else
    let k := Z.max (ilog2 (Qabs q) - 52) (-1074) in
    Qred (inject_Z (rne (q / pow2 k)%Q) * pow2 k)%Q.

Definition fadd (a b : Q) : Q := fl (a + b)%Q.
Definition fsub (a b : Q) : Q := fl (a - b)%Q.
Definition fmul (a b : Q) : Q := fl (a * b)%Q.
Definition fdiv (a b : Q) : Q := fl (a / b)%Q.

(** The double written as the decimal literal [n / d]. *)
Definition dbl (n : Z) (d : positive) : Q := fl (n # d).

(** ** Number formatting of the Python runtime *)

Definition digit_char (d : Z) : ascii := ascii_of_nat (48 + Z.to_nat d).

Fixpoint dec_digits (fuel : nat) (n : Z) (acc : string) : string :=
  match fuel with
  | O => acc
  | S fuel' =>
      let acc' := String (digit_char (n mod 10)) acc in
      if (n <? 10)%Z then acc' else dec_digits fuel' (n / 10) acc'
  end.

(** Decimal digits of a non-negative integer. *)
Definition dec (n : Z) : string := dec_digits (S (Z.to_nat (Z.log2 n))) n "".

(** The [w] low decimal digits of [n], zero padded on the left. *)
Fixpoint dec_fixed (w : nat) (n : Z) (acc : string) : string :=
  match w with
  | O => acc
  | S w' => dec_fixed w' (n / 10) (String (digit_char (n mod 10)) acc)
  end.

Definition sign_of (q : Q) : string := if Qltb q 0 then "-" else "".

(** [format(q, ".{d}f")]: the exact value rounded to [d] decimals, ties
    to even; the sign is kept when the digits round to zero. *)
Definition format_fixed (d : nat) (q : Q) : string :=
  let n := rne (Qabs q * pow10 (Z.of_nat d))%Q in
  let p := (10 ^ Z.of_nat d)%Z in
  sign_of q ++ dec (n / p) ++
  match d with O => "" | _ => "." ++ dec_fixed d (n mod p) "" end.

(** Decimal exponent of [q > 0] (exact over the range of doubles). *)
Definition ilog10 (q : Q) : Z :=
  let e := (ilog2 q * 30103 / 100000)%Z in
  if Qltb q (pow10 e) then (e - 1)%Z
  else if Qle_bool (pow10 (e + 1)) q then (e + 1)%Z else e.

(** The decimals with [p] significant digits just below and just above
    [q > 0], as integer mantissa and power of ten: the one that reads back
    as [q], the nearer one when both do. *)
Definition shortest_at (q : Q) (p : Z) : option (Z * Z) :=
  let x := (ilog10 q - p + 1)%Z in
  let s := (q / pow10 x)%Q in
  let lo := Qfloor s in
  let hi := Qceiling s in
  let ok m := Qeq_bool (fl (inject_Z m * pow10 x)%Q) q in
  match ok lo, ok hi with
  | true, true =>
      match (s - inject_Z lo ?= inject_Z hi - s)%Q with
      | Lt => Some (lo, x)
      | Gt => Some (hi, x)
      | Eq => Some (if Z.even lo then lo else hi, x)
      end
  | true, false => Some (lo, x)
  | false, true => Some (hi, x)
  | false, false => None
  end.

Fixpoint shortest_from (fuel : nat) (q : Q) (p : Z) : Z * Z :=
  match fuel with
  | O => (rne (q / pow10 (ilog10 q - 16))%Q, (ilog10 q - 16)%Z)
  | S fuel' =>
      match shortest_at q p with
      | Some r => r
      | None => shortest_from fuel' q (p + 1)
      end
  end.

Fixpoint strip_zeros (fuel : nat) (m x : Z) : Z * Z :=
  match fuel with
  | O => (m, x)
  | S fuel' =>
      if (m mod 10 =? 0)%Z then strip_zeros fuel' (m / 10) (x + 1)%Z
      else (m, x)
  end.

Definition zeros (n : nat) : string := string_of_list_ascii (repeat "0"%char n).

Definition substring_from (n : nat) (s : string) : string :=
  substring n (String.length s - n) s.

(** [repr] of a positive double: the shortest digits that read back as
    the same double, in positional notation when the decimal point falls
    within [-4 < decpt <= 16], in exponent notation otherwise. *)
Definition repr_pos (q : Q) : string :=
  let '(m0, x0) := shortest_from 17 q 1 in
  let '(m, x) := strip_zeros 20 m0 x0 in
  let ds := dec m in
  let n := Z.of_nat (String.length ds) in
  let decpt := (n + x)%Z in
  if ((-4 <? decpt) && (decpt <=? 16))%Z then
    if (decpt <=? 0)%Z then "0." ++ zeros (Z.to_nat (- decpt)) ++ ds
    else if (n <=? decpt)%Z then ds ++ zeros (Z.to_nat (decpt - n)) ++ ".0"
    else substring 0 (Z.to_nat decpt) ds ++ "." ++
         substring_from (Z.to_nat decpt) ds
  else
    let e := (decpt - 1)%Z in
    substring 0 1 ds ++
    (if (1 <? n)%Z then "." ++ substring_from 1 ds else "") ++
    "e" ++ (if (e <? 0)%Z then "-" else "+") ++
    (if (Z.abs e <? 10)%Z then "0" else "") ++ dec (Z.abs e).

(** [str(x)], also what an f-string field without a format prints. *)
Definition float_str (q : Q) : string :=
  if Qeq_bool q 0 then "0.0" else sign_of q ++ repr_pos (Qabs q).

(** ** Python slices *)

(** Clamping of a slice bound for a positive step: a negative bound
    counts from the end, and the result is kept within [0 .. len]. *)
Definition adjust_bound (len : Z) (bound : option Z) (default : Z) : Z :=
  match bound with
  | None => default
  | Some i =>
      let i' := if (i <? 0)%Z then (i + len)%Z else i in
      if (i' <? 0)%Z then 0%Z else if (len <=? i')%Z then len else i'
  end.

(** [range(a, b, step)] for [step > 0]. *)
Definition py_range (a b : Z) (step : positive) : list nat :=
  let count := if (a <? b)%Z then ((b - a + Zpos step - 1) / Zpos step)%Z
               else 0%Z in
  map (fun k => Z.to_nat (a + Z.of_nat k * Zpos step)) (seq 0 (Z.to_nat count)).

(** [l[start:stop:step]] for [step > 0]: the elements at the positions of
    the adjusted range. *)
Definition py_slice {A} (start stop : option Z) (step : positive)
    (l : list A) : list A :=
  let len := Z.of_nat (length l) in
  let a := adjust_bound len start 0 in
  let b := adjust_bound len stop len in
  omap (fun i => l !! i) (py_range a b step).

(** ** Tables read by the renderer *)

Inductive Month :=
  Jan | Feb | Mar | Apr | May | Jun | Jul | Aug | Sep | Oct | Nov | Dec.

Record Date := mkDate { year : Z; month : Month; day : Z }.

Definition month_abbr (m : Month) : string :=
  match m with
  | Jan => "Jan" | Feb => "Feb" | Mar => "Mar" | Apr => "Apr"
  | May => "May" | Jun => "Jun" | Jul => "Jul" | Aug => "Aug"
  | Sep => "Sep" | Oct => "Oct" | Nov => "Nov" | Dec => "Dec"
  end.

(** [d.strftime("%b %Y")] *)
Definition strftime_b_Y (d : Date) : string :=
  month_abbr (month d) ++ " " ++ dec (year d).

(** A numeric cell of a row.  [pd.read_csv] gives a column in which every
    cell is a whole number written without a point the type int64, and
    any other numeric column the type float64; the metric column holds
    strings, so that a row ([iterrows], [iloc]) is a series of objects in
    which every cell keeps the type of its column. *)
Inductive Number :=
  | Int64 (n : Z)
  | Float64 (x : Q).

(** The number in a cell, as comparisons see it. *)
Definition number_value (c : Number) : Q :=
  match c with
  | Int64 n => inject_Z n
  | Float64 x => x
  end.

(** [float(c)], the conversion that a float format applies to an
    integer. *)
Definition to_float (c : Number) : Q :=
  match c with
  | Int64 n => fl (inject_Z n)
  | Float64 x => x
  end.

(** [str(n)] of an integer: the digits, after a minus sign when negative. *)
Definition int_str (n : Z) : string :=
  (if (n <? 0)%Z then "-" else "") ++ dec (Z.abs n).

(** [str(c)], also what an f-string field without a format prints. *)
Definition number_str (c : Number) : string :=
  match c with
  | Int64 n => int_str n
  | Float64 x => float_str x
  end.

(** One row of [metrics.csv]; an empty prefix or suffix cell is read back
    as NaN, here [None]. *)
Record MetricRow := mkMetricRow {
  metric     : string;
  m_value    : Q;
  delta_cell : Number;
  m_prefix   : option string;
  m_suffix   : option string
}.

(** [row["delta"]] as a number, for the comparisons [row["delta"] > 0]. *)
Definition delta (row : MetricRow) : Q := number_value (delta_cell row).

(** A row of a table whose delta column is read as float64. *)
Definition mkMetric (metric : string) (value delta : Q)
    (prefix suffix : option string) : MetricRow :=
  mkMetricRow metric value (Float64 delta) prefix suffix.

(** [channel_acquisition.csv]: the date column and the other columns, in
    column order. *)
Record ChannelTable := mkChannel {
  ch_date    : list Date;
  ch_columns : list (string * list Z)
}.

(** One row of [arr_movement.csv]. *)
Record ArrRow := mkArr {
  category : string;
  measure  : string;
  a_value  : Q
}.

(** [cohort_data.csv]: the first column and, for the columns after it,
    their names and the cells of every row. *)
Record CohortTable := mkCohort {
  co_cohort  : list string;
  co_columns : list string;
  co_cells   : list (list Q)
}.

Record AdditionalTable := mkAdditional {
  ad_date    : list Date;
  ad_columns : list (string * list Q)
}.

(** The seven colors used by the area chart and the Sankey diagram. *)
Definition palette : list string :=
  ["#3498db"; "#e74c3c"; "#f39c12"; "#2ecc71"; "#9b59b6"; "#34495e"; "#1abc9c"].

(** ** KPI indicators: [create_kpi_indicators] *)

Definition upper_char (c : ascii) : ascii :=
  let n := nat_of_ascii c in
  if ((97 <=? n) && (n <=? 122))%nat then ascii_of_nat (n - 32) else c.

(** [str.upper] on ASCII letters; other bytes are kept. *)
Fixpoint upper (s : string) : string :=
  match s with
  | EmptyString => EmptyString
  | String c rest => String (upper_char c) (upper rest)
  end.

Record Font := mkFont {
  font_size   : Z;
  font_weight : option string;
  font_color  : string
}.

Record Margin := mkMargin { margin_t : Z; margin_b : Z; margin_l : Z; margin_r : Z }.

(** A [go.Figure(go.Indicator(...)).update_layout(...)]. *)
Record Indicator := mkIndicator {
  ind_mode          : string;
  ind_title_text    : string;
  ind_title_font    : Font;
  ind_value         : Q;
  ind_number_prefix : string;
  ind_number_suffix : string;
  ind_number_font   : Font;
  ind_height        : Z;
  ind_margin        : Margin;
  ind_template      : string;
  ind_paper_bgcolor : string;
  ind_plot_bgcolor  : string
}.

(** The string literals of the source for the four arrows. *)
Definition arrow_up : string := "â†‘".
Definition arrow_down : string := "â†“".
Definition arrow_up_right : string := "â†—".
Definition arrow_down_right : string := "â†˜".

(** The two values that the loop of [create_kpi_indicators] computes from
    the delta of a row ("Determine delta color and symbol"). *)
Definition indicator_delta_color (row : MetricRow) : string :=
  if Qltb 0 (delta row) then "green" else "red".

Definition indicator_delta_symbol (row : MetricRow) : string :=
  if Qltb 0 (delta row) then arrow_up else arrow_down.

(** One turn of the loop: the two values above are bound and not used. *)
Definition kpi_indicator (row : MetricRow) : Indicator :=
  let prefix := match m_prefix row with None => "" | Some p => p end in
  let suffix := match m_suffix row with None => "" | Some s => s end in
  let delta_color := indicator_delta_color row in
  let delta_symbol := indicator_delta_symbol row in
  {| ind_mode          := "number";
     ind_title_text    := "<b>" ++ upper (metric row) ++ "</b>";
     ind_title_font    := mkFont 14 None "#2c3e50";
     ind_value         := m_value row;
     ind_number_prefix := prefix;
     ind_number_suffix := suffix;
     ind_number_font   := mkFont 32 (Some "bold") "#34495e";
     ind_height        := 120;
     ind_margin        := mkMargin 30 20 10 10;
     ind_template      := "plotly_white";
     ind_paper_bgcolor := "rgba(0,0,0,0)";
     ind_plot_bgcolor  := "rgba(0,0,0,0)" |}.

Definition create_kpi_indicators (metrics : list MetricRow) : list Indicator :=
  map kpi_indicator metrics.

(** ** KPI cards: [generate_kpi_cards_html]

    A card is the card template with its holes filled: the grid column,
    the indicator figure and its [include_plotlyjs] option, the class of
    the delta span and the text of the delta span. *)

Inductive PlotlyJs := Cdn | NoPlotlyJs.

Record KpiCard := mkCard {
  card_grid_column : nat;
  card_figure      : Indicator;
  card_plotlyjs    : PlotlyJs;
  card_span_class  : string;
  card_span_text   : string
}.

Definition delta_class (row : MetricRow) : string :=
  if Qltb 0 (delta row) then "positive" else "negative".

Definition delta_symbol (row : MetricRow) : string :=
  if Qltb 0 (delta row) then arrow_up_right else arrow_down_right.

(** [f"{row['delta']:.1f}"] formats the cell as a float; [f"{row['delta']}"]
    prints the cell as [str] does: an integer without a point. *)
Definition delta_text (row : MetricRow) : string :=
  if decide (m_suffix row = Some "M") then
    delta_symbol row ++ " " ++ format_fixed 1 (to_float (delta_cell row)) ++ "%"
  else
    let prefix := match m_prefix row with Some p => p | None => "" end in
    let suffix := match m_suffix row with Some s => s | None => "" end in
    delta_symbol row ++ " " ++ prefix ++ number_str (delta_cell row) ++ suffix.

(** One turn of the loop; [indicator_figs[i]] raises [IndexError] out of
    range, here [None]. *)
Definition kpi_card (indicator_figs : list Indicator) (i : nat)
    (row : MetricRow) : option KpiCard :=
  fig ← indicator_figs !! i;
  Some {| card_grid_column := i + 1;
          card_figure      := fig;
          card_plotlyjs    := if decide (i = 0%nat) then Cdn else NoPlotlyJs;
          card_span_class  := delta_class row;
          card_span_text   := delta_text row |}.

Definition generate_kpi_cards_html (metrics : list MetricRow)
    (indicator_figs : list Indicator) : option (list KpiCard) :=
  mapM (fun ir => kpi_card indicator_figs ir.1 ir.2) (imap pair metrics).

(** The two rules of the page's style sheet for the delta span. *)
Definition css_color (class : string) : option string :=
  if decide (class = "positive") then Some "#27ae60"
  else if decide (class = "negative") then Some "#e74c3c"
  else None.

(** ** Stacked area chart: [create_channel_acquisition_chart] *)

Definition tick_dates {A} (dates : list A) : list A :=
  let N := 2%Z in
  if (2 * N <? Z.of_nat (length dates))%Z
  then py_slice (Some N) (Some (- N)%Z) 3 dates
  else py_slice None None 3 dates.

Record Trace := mkTrace {
  tr_name      : string;
  tr_x         : list Date;
  tr_y         : list Z;
  tr_fillcolor : string
}.

Record AreaChart := mkArea {
  area_traces   : list Trace;
  area_tickvals : list Date;
  area_ticktext : list string
}.

Definition create_channel_acquisition_chart (channel : ChannelTable) : AreaChart :=
  let ticks := tick_dates (ch_date channel) in
  let colors := palette in
  {| area_traces :=
       imap (fun i ch =>
               {| tr_name := ch.1; tr_x := ch_date channel; tr_y := ch.2;
                  tr_fillcolor := colors !!! (i mod length colors)%nat |})
            (ch_columns channel);
     area_tickvals := ticks;
     area_ticktext := map strftime_b_Y ticks |}.

(** ** ARR waterfall: [create_arr_waterfall] *)

Definition format_value (val : Q) : string :=
  if Qle_bool 1000000 (Qabs val)
  then "$" ++ format_fixed 1 (fdiv val 1000000) ++ "M"
  else "$" ++ format_fixed 0 (fdiv val 1000) ++ "K".

Record Waterfall := mkWaterfall {
  wf_x       : list string;
  wf_y       : list Q;
  wf_measure : list string;
  wf_text    : list string
}.

Definition create_arr_waterfall (arr : list ArrRow) : Waterfall :=
  let formatted_values := map (fun r => format_value (a_value r)) arr in
  {| wf_x       := map category arr;
     wf_y       := map a_value arr;
     wf_measure := map measure arr;
     wf_text    := formatted_values |}.

(** ** Cohort heat map: [create_cohort_heatmap] *)

Record Heatmap := mkHeatmap {
  hm_z : list (list Q);
  hm_x : list string;
  hm_y : list string
}.

Definition create_cohort_heatmap (cohort : CohortTable) : Heatmap :=
  {| hm_z := map (take 12) (co_cells cohort);
     hm_x := take 12 (co_columns cohort);
     hm_y := co_cohort cohort |}.

(** ** Funnel (Sankey) builder: [create_funnel_sankey] *)

(** One row of [funnel_data.csv]. *)
Record FunnelEdge := mkEdge {
  source : string;
  target : string;
  f_value : Z
}.

(** [funnel[["source", "target"]].values.ravel()]: the n x 2 array of the
    two columns, flattened row by row. *)
Definition ravel (funnel : list FunnelEdge) : list string :=
  flat_map (fun e => [source e; target e]) funnel.

(** [pd.unique]: one pass with a hash table of the values met so far; a
    value is appended to the result the first time it is met. *)
Fixpoint unique_from (seen : gset string) (xs : list string) : list string :=
  match xs with
  | [] => []
  | x :: rest =>
      if decide (x ∈ seen) then unique_from seen rest
      else x :: unique_from ({[ x ]} ∪ seen) rest
  end.

Definition pd_unique (xs : list string) : list string := unique_from ∅ xs.

(** [list.index]: position of the first equal element; Python raises
    [ValueError] when there is none, here [None]. *)
Fixpoint index (l : list string) (x : string) : option nat :=
  match l with
  | [] => None
  | y :: rest => if decide (y = x) then Some 0%nat else S <$> index rest x
  end.

(** The data of the [go.Sankey] trace. *)
Record Sankey := mkSankey {
  node_label  : list string;
  node_color  : list string;
  link_source : list nat;
  link_target : list nat;
  link_value  : list Z
}.

Definition create_funnel_sankey (funnel : list FunnelEdge) : option Sankey :=
  let labels := pd_unique (ravel funnel) in
  source_indices ← mapM (fun e => index labels (source e)) funnel;
  target_indices ← mapM (fun e => index labels (target e)) funnel;
  let node_colors := palette ++ palette ++ palette in
  Some {| node_label  := labels;
          node_color  := take (length labels) node_colors;
          link_source := source_indices;
          link_target := target_indices;
          link_value  := map f_value funnel |}.

(** ** The renderer's entry point: [load_data], [create_dashboard_html], [main]

    The part of the world the renderer touches: the six data files, the
    output directory, the output file and the standard output.  A data
    file is missing, or present but rejected by [pd.read_csv] (empty,
    malformed, no date column), or present with its table. *)

Inductive CsvFile (A : Type) :=
  | Missing
  | Unreadable
  | Table (t : A).
Arguments Missing {A}.
Arguments Unreadable {A}.
Arguments Table {A} t.

Record DataDir := mkDataDir {
  metrics_csv             : CsvFile (list MetricRow);
  channel_acquisition_csv : CsvFile ChannelTable;
  arr_movement_csv        : CsvFile (list ArrRow);
  funnel_data_csv         : CsvFile (list FunnelEdge);
  cohort_data_csv         : CsvFile CohortTable;
  additional_metrics_csv  : CsvFile AdditionalTable
}.

(** The dashboard page: the figures and cards that fill the holes of the
    page template.  The text that [to_html] makes of a figure, with the
    identifier that it chooses for the figure's element at each call, is
    not part of the model. *)
Record Dashboard := mkDashboard {
  page_kpi_cards : list KpiCard;
  page_area      : AreaChart;
  page_waterfall : Waterfall;
  page_sankey    : Sankey;
  page_heatmap   : Heatmap
}.

Record World := mkWorld {
  data_dir    : DataDir;
  output_dir  : bool;
  output_file : option Dashboard;
  stdout      : list string
}.

Inductive exn :=
  | FileNotFoundError (filename : string)
  | ParserError (filename : string)
  | OSError (filename : string)
  | ValueError
  | IndexError.

Inductive result (A : Type) :=
  | Ok (a : A)
  | Raise (e : exn).
Arguments Ok {A} a.
Arguments Raise {A} e.

(** Computations on the world that return or raise. *)
Definition M (A : Type) : Type := World → World * result A.

Definition ret {A} (a : A) : M A := fun w => (w, Ok a).
Definition raise {A} (e : exn) : M A := fun w => (w, Raise e).
Definition bind {A B} (m : M A) (k : A → M B) : M B :=
  fun w => match m w with
           | (w', Ok a) => k a w'
           | (w', Raise e) => (w', Raise e)
           end.

Declare Scope io_scope.
Delimit Scope io_scope with io.
Notation "x ←← m ; k" := (bind m (fun x => k))
  (at level 100, m at next level, right associativity) : io_scope.
Notation "m ;;; k" := (bind m (fun _ => k))
  (at level 100, right associativity) : io_scope.

Definition print (line : string) : M unit :=
  fun w => (mkWorld (data_dir w) (output_dir w) (output_file w)
                    (stdout w ++ [line]), Ok tt).

Definition read_csv {A} (filename : string) (file : DataDir → CsvFile A) : M A :=
  fun w => match file (data_dir w) with
           | Missing => (w, Raise (FileNotFoundError filename))
           | Unreadable => (w, Raise (ParserError filename))
           | Table t => (w, Ok t)
           end.

(** [str(e)] of the [FileNotFoundError] raised by [open]. *)
Definition file_not_found_message (filename : string) : string :=
  "[Errno 2] No such file or directory: '" ++ filename ++ "'".

(** [try: ... except FileNotFoundError as e: ...]; any other exception
    goes through. *)
Definition except_FileNotFoundError {A} (body : M A) (handler : string → M A) : M A :=
  fun w => match body w with
           | (w', Raise (FileNotFoundError filename)) => handler filename w'
           | r => r
           end.

Definition Data : Type :=
  list MetricRow * ChannelTable * list ArrRow * list FunnelEdge *
  CohortTable * AdditionalTable.

Definition run_generator_message : string :=
  "Please run data_gen.py first to generate the data files.".

Definition load_data : M (option Data) :=
  except_FileNotFoundError
    (metrics ←← read_csv "data/metrics.csv" metrics_csv;
     channel ←← read_csv "data/channel_acquisition.csv" channel_acquisition_csv;
     arr ←← read_csv "data/arr_movement.csv" arr_movement_csv;
     funnel ←← read_csv "data/funnel_data.csv" funnel_data_csv;
     cohort ←← read_csv "data/cohort_data.csv" cohort_data_csv;
     additional ←← read_csv "data/additional_metrics.csv" additional_metrics_csv;
     ret (Some (metrics, channel, arr, funnel, cohort, additional)))%io
    (fun filename =>
       print ("Error loading data: " ++ file_not_found_message filename) ;;;
       print run_generator_message ;;;
       ret None)%io.

Definition ensure_output_directory : M unit :=
  fun w => (mkWorld (data_dir w) true (output_file w) (stdout w), Ok tt).

(** [with open(output, "w") as f: f.write(...)]: the directory has to
    exist; an existing file is replaced. *)
Definition write_output (page : Dashboard) : M unit :=
  fun w => if output_dir w
           then (mkWorld (data_dir w) true (Some page) (stdout w), Ok tt)
           else (w, Raise (FileNotFoundError "output/dashboard.html")).

Definition of_option {A} (e : exn) (o : option A) : M A :=
  match o with Some a => ret a | None => raise e end.

Definition create_dashboard_html (metrics : list MetricRow)
    (channel : ChannelTable) (arr : list ArrRow) (funnel : list FunnelEdge)
    (cohort : CohortTable) : M Dashboard :=
  (let indicator_figs := create_kpi_indicators metrics in
   let area_fig := create_channel_acquisition_chart channel in
   let waterfall_fig := create_arr_waterfall arr in
   sankey_fig ←← of_option ValueError (create_funnel_sankey funnel);
   let heatmap_fig := create_cohort_heatmap cohort in
   cards ←← of_option IndexError (generate_kpi_cards_html metrics indicator_figs);
   let dashboard_html :=
     mkDashboard cards area_fig waterfall_fig sankey_fig heatmap_fig in
   write_output dashboard_html ;;;
   ret dashboard_html)%io.

Definition main : M unit :=
  (print "Creating SaaS Business Dashboard..." ;;;
   data ←← load_data;
   match data with
   | None => ret tt
   | Some (metrics, channel, arr, funnel, cohort, additional) =>
       ensure_output_directory ;;;
       dashboard_html ←← create_dashboard_html metrics channel arr funnel cohort;
       print "Dashboard created successfully!" ;;;
       print "Open 'output/dashboard.html' in your web browser to view the dashboard."
   end)%io.

(** ** Generator: [data_gen.py]

    The draws of [np.random] and the values of [np.sin] are inputs of the
    model; arithmetic on them is the rounded arithmetic above. *)

(** [np.clip(x, lo, hi)]: [minimum(maximum(x, lo), hi)], a missing bound
    is not applied. *)
Definition clip (x : Q) (lo hi : option Q) : Q :=
  let y := match lo with Some l => Qmax x l | None => x end in
  match hi with Some h => Qmin y h | None => y end.

Definition trunc (x : Q) : Z := if Qltb x 0 then Qceiling x else Qfloor x.

(** [x.astype(int)]: truncation toward zero; the conversion of a value
    outside the 64-bit range gives the smallest 64-bit integer. *)
Definition astype_int (x : Q) : Z :=
  let t := trunc x in
  if ((- 2 ^ 63 <=? t) && (t <? 2 ^ 63))%Z then t else (- 2 ^ 63)%Z.

(** [np.pi] *)
Definition np_pi : Q := 884279719003555 # 281474976710656.

(** [np.linspace(start, stop, num)] *)
Definition linspace (start stop : Q) (num : nat) : list Q :=
  let div := (num - 1)%nat in
  let y := map (fun i => inject_Z (Z.of_nat i)) (seq 0 num) in
  let delta := fsub stop start in
  let y :=
    if (0 <? div)%nat then
      let step := fdiv delta (inject_Z (Z.of_nat div)) in
      if Qeq_bool step 0
      then map (fun v => fmul (fdiv v (inject_Z (Z.of_nat div))) delta) y
      else map (fun v => fmul v step) y
    else map (fun v => fmul v delta) y in
  let y := map (fun v => fadd v start) y in
  if (1 <? num)%nat then take div y ++ [stop] else y.

Definition month_of_index (i : Z) : Month :=
  match i with
  | 0 => Jan | 1 => Feb | 2 => Mar | 3 => Apr | 4 => May | 5 => Jun
  | 6 => Jul | 7 => Aug | 8 => Sep | 9 => Oct | 10 => Nov | _ => Dec
  end%Z.

(** [pd.date_range(start, end, freq="MS")] between two first days of a
    month, given as year and month number. *)
Definition date_range_MS (y0 m0 y1 m1 : Z) : list Date :=
  let first := (y0 * 12 + (m0 - 1))%Z in
  let last := (y1 * 12 + (m1 - 1))%Z in
  map (fun k => let i := (first + Z.of_nat k)%Z in
                mkDate (i / 12) (month_of_index (i mod 12)) 1)
      (seq 0 (Z.to_nat (last - first + 1))).

Definition channels : list string :=
  ["Direct"; "Referrals"; "Email Marketing"; "Content Marketing";
   "Social Media"; "Paid Search"; "Organic Search"].

Section Generator.

(** [np.sin] on doubles. *)
Variable np_sin : Q → Q.

(** *** [generate_channel_acquisition] *)

(** The array [trend + seasonal + noise] of the channel at position [i],
    [noise] being the channel's draw of
    [np.random.normal(scale=50, size=len(dates))]. *)
Definition channel_raw (n : nat) (i : nat) (channel : string)
    (noise : list Q) : list Q :=
  let base := linspace 200%Q 800%Q n in
  let seasonal :=
    map (fun v => fmul 50%Q (np_sin (fadd v (inject_Z (Z.of_nat i)))))
        (linspace 0%Q (fmul 4%Q np_pi) n) in
  let trend :=
    zip_with fmul base
      (map (fun v => fadd 1%Q (fmul (dbl 1 10)
                               (np_sin (fadd v (inject_Z (Z.of_nat i))))))
           (linspace 0%Q (fmul 3%Q np_pi) n)) in
  let trend :=
    if decide (channel = "Organic Search") then map (fun t => fmul t (dbl 13 10)) trend
    else if decide (channel = "Paid Search") then map (fun t => fmul t (dbl 11 10)) trend
    else if decide (channel = "Social Media") then map (fun t => fmul t (dbl 8 10)) trend
    else trend in
  zip_with fadd (zip_with fadd trend seasonal) noise.

Definition channel_column (n : nat) (i : nat) (channel : string)
    (noise : list Q) : list Z :=
  map (fun x => astype_int (clip x (Some 50%Q) None))
      (channel_raw n i channel noise).

(** [noise i] is the draw made in the turn of the channel at position [i]. *)
Definition generate_channel_acquisition (noise : nat → list Q) : ChannelTable :=
  let dates := date_range_MS 2022 3 2024 11 in
  {| ch_date := dates;
     ch_columns :=
       imap (fun i channel =>
               (channel, channel_column (length dates) i channel (noise i)))
            channels |}.

(** *** [generate_cohort_data] *)

(** [np.cumsum] *)
Fixpoint cumsum_from (acc : Q) (l : list Q) : list Q :=
  match l with
  | [] => []
  | x :: rest => let acc' := fadd acc x in acc' :: cumsum_from acc' rest
  end.

Definition cumsum (l : list Q) : list Q :=
  match l with
  | [] => []
  | x :: rest => x :: cumsum_from x rest
  end.

(** The retention row of the cohort at position [cohort_idx];
    [early_declines] and [later_declines] are its two draws of
    [np.random.uniform]. *)
Definition cohort_retention (months : nat) (cohort_idx : nat)
    (early_declines later_declines : list Q) : list Q :=
  let base_retention := 100%Q in
  let declines := early_declines ++ later_declines in
  let retention := map (fun c => fsub base_retention c) (cumsum declines) in
  let retention := map (fun r => clip r (Some 45%Q) (Some 100%Q)) retention in
  let seasonal_adjustment :=
    map (fun v => fmul 2%Q (np_sin (fadd v (inject_Z (Z.of_nat cohort_idx)))))
        (linspace 0%Q (fmul 2%Q np_pi) months) in
  let retention := zip_with fadd retention seasonal_adjustment in
  map (fun r => clip r (Some 45%Q) (Some 100%Q)) retention.

(** [f"2023-{m:02d}"] *)
Definition cohort_name (m : Z) : string :=
  "2023-" ++ (if (m <? 10)%Z then "0" else "") ++ dec m.

Definition generate_cohort_data (num_cohorts months : nat)
    (early_declines later_declines : nat → list Q) : CohortTable :=
  let cohorts := map (fun k => cohort_name (Z.of_nat k + 1)) (seq 0 num_cohorts) in
  {| co_cohort  := cohorts;
     co_columns := map (fun i => ("M" ++ dec (Z.of_nat i))%string) (seq 0 months);
     co_cells   :=
       imap (fun cohort_idx _ =>
               cohort_retention months cohort_idx
                 (early_declines cohort_idx) (later_declines cohort_idx))
            cohorts |}.

End Generator.

(** *** [generate_arr_movement]

    [u1 .. u4] are the four draws of [np.random.uniform], in order. *)
Definition generate_arr_movement (u1 u2 u3 u4 : Q) : list ArrRow :=
  let starting_arr := 28000000%Q in
  let new_business := u1 in
  let expansion := u2 in
  let contraction := (- u3)%Q in
  let churn := (- u4)%Q in
  let ending_arr :=
    fadd (fadd (fadd (fadd starting_arr new_business) expansion) contraction)
         churn in
  [ mkArr "Starting ARR" "absolute" starting_arr;
    mkArr "New Business" "relative" new_business;
    mkArr "Expansion" "relative" expansion;
    mkArr "Contraction" "relative" contraction;
    mkArr "Churn" "relative" churn;
    mkArr "Ending ARR" "total" ending_arr ].

(** *** [generate_metrics] and [generate_funnel_data], as read back *)

Definition mrr_row : MetricRow :=
  mkMetric "Monthly Recurring Revenue" (dbl 32 10) (dbl 42 10) (Some "$") (Some "M").

Definition cac_row : MetricRow :=
  mkMetric "CAC Payback Period" (dbl 142 10) (dbl (-9) 10) None (Some "mo").

(** A row of a table whose delta column holds whole numbers only. *)
Definition whole_delta_row : MetricRow :=
  mkMetricRow "LTV:CAC Ratio" (dbl 48 10) (Int64 5) None (Some "x").

Definition sample_metrics : list MetricRow :=
  [ mrr_row;
    cac_row;
    mkMetric "Net Revenue Retention" 112%Q (dbl 45 10) None (Some "%");
    mkMetric "Monthly Churn Rate" (dbl 42 10) (dbl (-6) 10) None (Some "%");
    mkMetric "LTV:CAC Ratio" (dbl 48 10) (dbl 5 10) None (Some "x") ].

(** The generator's funnel table: "MQL" is a target of the first rows and
    a source of later ones, and keeps the single index 1. *)
Definition sample_funnel : list FunnelEdge :=
  [ mkEdge "Organic Search" "MQL" 5000; mkEdge "Paid Search" "MQL" 4000;
    mkEdge "Content Marketing" "MQL" 3000; mkEdge "Social Media" "MQL" 3500;
    mkEdge "Direct" "MQL" 4500; mkEdge "Email Marketing" "MQL" 3200;
    mkEdge "Referrals" "MQL" 2800;
    mkEdge "MQL" "SQL" 6000; mkEdge "MQL" "Unqualified" 2500;
    mkEdge "SQL" "Opportunity" 1800; mkEdge "SQL" "No Opportunity" 2000;
    mkEdge "SQL" "Lost" 1500; mkEdge "SQL" "Won" 700 ].

(** The tick rule in the words of the specification: every third element
    of a list, and the dates without the first two and the last two. *)
Fixpoint every_third {A} (l : list A) : list A :=
  match l with
  | x :: _ :: _ :: rest => x :: every_third rest
  | x :: _ => [x]
  | [] => []
  end.

Definition tick_dates_spec {A} (dates : list A) : list A :=
  if (4 <? length dates)%nat
  then every_third (drop 2 (take (length dates - 2) dates))
  else every_third dates.

(** The two renderings of a delta in the words of the specification: as
    a percent (one decimal and a percent sign), and as the raw number
    wrapped in the row's prefix and suffix. *)
Definition percent_text (row : MetricRow) : string :=
  delta_symbol row ++ " " ++ format_fixed 1 (to_float (delta_cell row)) ++ "%".

Definition raw_text (row : MetricRow) : string :=
  delta_symbol row ++ " " ++
  default "" (m_prefix row) ++ number_str (delta_cell row) ++
  default "" (m_suffix row).

(** Whether a character occurs in a string. *)
Fixpoint has_char (c : ascii) (s : string) : bool :=
  match s with
  | EmptyString => false
  | String a s' => Ascii.eqb a c || has_char c s'
  end.

(** The rule for the delta text with [special] as the special-cased suffix. *)
Definition delta_rule (special : string) (row : MetricRow) : Prop :=
  (m_suffix row = Some special → delta_text row = percent_text row) ∧
  (m_suffix row ≠ Some special → delta_text row = raw_text row).

(** Two metric tables that agree on every column except [delta]. *)
Definition same_but_delta (r1 r2 : MetricRow) : Prop :=
  metric r1 = metric r2 ∧ m_value r1 = m_value r2 ∧
  m_prefix r1 = m_prefix r2 ∧ m_suffix r1 = m_suffix r2.

(** What the loader finds at each of the six paths, in the order in which
    it reads them. *)
Inductive FileStatus := FileMissing | FileUnreadable | FilePresent.

Definition status {A} (file : CsvFile A) : FileStatus :=
  match file with
  | Missing => FileMissing
  | Unreadable => FileUnreadable
  | Table _ => FilePresent
  end.

Definition file_statuses (d : DataDir) : list FileStatus :=
  [ status (metrics_csv d); status (channel_acquisition_csv d);
    status (arr_movement_csv d); status (funnel_data_csv d);
    status (cohort_data_csv d); status (additional_metrics_csv d) ].

Definition some_file_missing (d : DataDir) : Prop :=
  FileMissing ∈ file_statuses d.

(** A file is missing and every file read before it is read well. *)
Definition reads_well_until_missing (d : DataDir) : Prop :=
  ∃ before after,
    file_statuses d = before ++ FileMissing :: after ∧
    Forall (fun st => st = FilePresent) before.

(** The run ends by a plain return, has printed the instruction to run the
    generator, and has left the output directory and file as they were. *)
Definition refuses_cleanly (w : World) : Prop :=
  (main w).2 = Ok tt ∧
  run_generator_message ∈ stdout (main w).1 ∧
  output_file (main w).1 = output_file w ∧
  output_dir (main w).1 = output_dir w.

(** Two worlds before a run, with no output yet: one without
    [data/metrics.csv], the other files being there; one with an empty
    [data/metrics.csv] and without [data/channel_acquisition.csv]. *)
Definition world_missing_metrics : World :=
  {| data_dir :=
       {| metrics_csv := Missing;
          channel_acquisition_csv := Table (mkChannel [] []);
          arr_movement_csv := Table [];
          funnel_data_csv := Table sample_funnel;
          cohort_data_csv := Table (mkCohort [] [] []);
          additional_metrics_csv := Table (mkAdditional [] []) |};
     output_dir := false;
     output_file := None;
     stdout := [] |}.

Definition world_empty_metrics : World :=
  {| data_dir :=
       {| metrics_csv := Unreadable;
          channel_acquisition_csv := Missing;
          arr_movement_csv := Table [];
          funnel_data_csv := Table sample_funnel;
          cohort_data_csv := Table (mkCohort [] [] []);
          additional_metrics_csv := Table (mkAdditional [] []) |};
     output_dir := false;
     output_file := None;
     stdout := [] |}.

(** All the arrays [trend + seasonal + noise] of a run, channel after
    channel. *)
Definition channel_raw_values (np_sin : Q → Q) (noise : nat → list Q) : list Q :=
  concat (imap (fun i channel =>
                  channel_raw np_sin (length (date_range_MS 2022 3 2024 11))
                              i channel (noise i))
               channels).

(** The balance of an ARR movement table in the words of the
    specification: six rows, an absolute starting value, four relative
    rows and a total ending value that is the sum of the five within the
    relative tolerance [1e-6] (of either side). *)
Definition tolerance : Q := 1 # 1000000.

Definition balances (rows : list ArrRow) : Prop :=
  map measure rows =
    ["absolute"; "relative"; "relative"; "relative"; "relative"; "total"] ∧
  match map a_value rows with
  | [starting; new_business; expansion; contraction; churn; ending] =>
      let total := (starting + new_business + expansion + contraction + churn)%Q in
      (Qabs (ending - total) <= tolerance * Qabs total)%Q ∧
      (Qabs (ending - total) <= tolerance * Qabs ending)%Q
  | _ => False
  end.

(** The two display forms of a waterfall value in the words of the
    specification, and the rule that chooses between them, [magnitude]
    being what is compared with one million. *)
Definition millions_text (val : Q) : string :=
  "$" ++ format_fixed 1 (fdiv val 1000000) ++ "M".

Definition thousands_text (val : Q) : string :=
  "$" ++ format_fixed 0 (fdiv val 1000) ++ "K".

Definition value_rule (magnitude : Q → Q) (val : Q) : Prop :=
  ((1000000 <= magnitude val)%Q → format_value val = millions_text val) ∧
  ((magnitude val < 1000000)%Q → format_value val = thousands_text val).

(** ** Generator: the remaining tables, the CSV files and [main] *)

(** The strings that [pd.read_csv] reads as a missing value. *)
Definition na_values : list string :=
  [""; "#N/A"; "#N/A N/A"; "#NA"; "-1.#IND"; "-1.#QNAN"; "-NaN"; "-nan";
   "1.#IND"; "1.#QNAN"; "<NA>"; "N/A"; "NA"; "NULL"; "NaN"; "None"; "n/a";
   "nan"; "null"].

(** A string cell written by [to_csv] and read by [pd.read_csv]. *)
Definition read_text_cell (s : string) : option string :=
  if bool_decide (s ∈ na_values) then None else Some s.

(** The rows of the data frame of [generate_metrics]. *)
Definition generate_metrics : list (string * Q * Q * string * string) :=
  [ ("Monthly Recurring Revenue", dbl 32 10, dbl 42 10, "$", "M");
    ("CAC Payback Period", dbl 142 10, dbl (-9) 10, "", "mo");
    ("Net Revenue Retention", 112%Q, dbl 45 10, "", "%");
    ("Monthly Churn Rate", dbl 42 10, dbl (-6) 10, "", "%");
    ("LTV:CAC Ratio", dbl 48 10, dbl 5 10, "", "x") ].

(** The rows of the data frame of [generate_funnel_data]. *)
Definition generate_funnel_data : list FunnelEdge :=
  [ (* Traffic sources to MQL *)
    mkEdge "Organic Search" "MQL" 5000;
    mkEdge "Paid Search" "MQL" 4000;
    mkEdge "Content Marketing" "MQL" 3000;
    mkEdge "Social Media" "MQL" 3500;
    mkEdge "Direct" "MQL" 4500;
    mkEdge "Email Marketing" "MQL" 3200;
    mkEdge "Referrals" "MQL" 2800;
    (* MQL to SQL conversion *)
    mkEdge "MQL" "SQL" 6000;
    mkEdge "MQL" "Unqualified" 2500;
    (* SQL to Opportunity *)
    mkEdge "SQL" "Opportunity" 1800;
    mkEdge "SQL" "No Opportunity" 2000;
    mkEdge "SQL" "Lost" 1500;
    mkEdge "SQL" "Won" 700 ].





Section DataFiles.

(** [np.sin], and the double that [pd.read_csv] makes of the text that
    [to_csv] writes for a double. *)
Variable np_sin : Q → Q.
Variable read_float : Q → Q.

(** The tables as the renderer reads them back from the files that the
    generator writes.  Integers, dates and the strings of the funnel, ARR
    and cohort tables come back as they are (none of these strings is a
    missing-value token); an empty prefix or suffix comes back missing.
    The value and delta columns of the metrics frame are float columns,
    written with a point in every cell, and come back as floats. *)
Definition csv_metrics (frame : list (string * Q * Q * string * string))
    : list MetricRow :=
  map (fun '(name, value, dlt, prefix, suffix) =>
         mkMetric (default "nan" (read_text_cell name))
                  (read_float value) (read_float dlt)
                  (read_text_cell prefix) (read_text_cell suffix))
      frame.













End DataFiles.




(** The six paths in the order in which [load_data] reads them. *)
Definition data_paths : list string :=
  [ "data/metrics.csv"; "data/channel_acquisition.csv";
    "data/arr_movement.csv"; "data/funnel_data.csv";
    "data/cohort_data.csv"; "data/additional_metrics.csv" ].

(** Position and status of the first file that is not read well. *)
Fixpoint first_unavailable (k : nat) (sts : list FileStatus)
    : option (nat * FileStatus) :=
  match sts with
  | [] => None
  | FilePresent :: rest => first_unavailable (S k) rest
  | st :: _ => Some (k, st)
  end.

(** The lines that a run of the renderer prints. *)
Definition line_creating : string := "Creating SaaS Business Dashboard...".
Definition line_created : string := "Dashboard created successfully!".
Definition line_open : string :=
  "Open 'output/dashboard.html' in your web browser to view the dashboard.".

(** The page that the renderer builds from the five tables it uses, when
    the builders do not fail. *)
Definition build_page (metrics : list MetricRow) (channel : ChannelTable)
    (arr : list ArrRow) (funnel : list FunnelEdge) (cohort : CohortTable)
    : option Dashboard :=
  sankey_fig ← create_funnel_sankey funnel;
  cards ← generate_kpi_cards_html metrics (create_kpi_indicators metrics);
  Some (mkDashboard cards (create_channel_acquisition_chart channel)
                    (create_arr_waterfall arr) sankey_fig
                    (create_cohort_heatmap cohort)).

(** The range of the color scale of the heat map ([zmin], [zmax]). *)
Definition heatmap_zmin : Q := 40.
Definition heatmap_zmax : Q := 100.

(* ===================================================================== *)
(** * Theorems *)
(* ===================================================================== *)

(** ** Comparisons *)

Lemma Qltb_lt (a b : Q) : Qltb a b = true ↔ (a < b)%Q.
Proof.
  unfold Qltb. rewrite negb_true_iff. split.
  - intros Hle. apply Qnot_le_lt. intros H. apply Qle_bool_iff in H. congruence.
  - intros Hlt. destruct (Qle_bool b a) eqn:E; [|reflexivity].
    apply Qle_bool_iff in E. lra.
Qed.

Lemma Forall_Qltb (bound : Q) (l : list Q) :
  forallb (fun x => Qltb x bound) l = true → Forall (fun x => x < bound)%Q l.
Proof.
  intros H. apply Forall_forall. intros x Hx.
  rewrite forallb_forall in H. apply Qltb_lt, H. by apply list_elem_of_In.
Qed.

(** ** Funnel (Sankey) builder *)

Lemma unique_from_elem seen xs x :
  x ∈ unique_from seen xs ↔ x ∈ xs ∧ x ∉ seen.
Proof.
  revert seen; induction xs as [|y xs IH]; intros seen; simpl.
  - set_solver.
  - destruct (decide (y ∈ seen)) as [Hy|Hy].
    + rewrite IH. set_solver.
    + rewrite elem_of_cons, IH. split.
      * intros [->|[? ?]]; set_solver.
      * intros [Hx Hs]. destruct (decide (x = y)) as [->|Hne]; [by left|].
        right. set_solver.
Qed.

Lemma unique_from_NoDup seen xs : NoDup (unique_from seen xs).
Proof.
  revert seen; induction xs as [|y xs IH]; intros seen; simpl.
  - constructor.
  - destruct (decide (y ∈ seen)); [apply IH|].
    constructor; [|apply IH].
    rewrite unique_from_elem. set_solver.
Qed.

Lemma index_Some_lookup l x i : index l x = Some i → l !! i = Some x.
Proof.
  revert i; induction l as [|y l IH]; intros i; simpl; [done|].
  destruct (decide (y = x)) as [->|Hne].
  - by intros [= <-].
  - destruct (index l x) as [j|] eqn:E; simpl; [|done].
    intros [= <-]. simpl. by apply IH.
Qed.

Lemma index_is_Some l x : x ∈ l → is_Some (index l x).
Proof.
  induction l as [|y l IH]; simpl.
  - by intros ?%elem_of_nil.
  - destruct (decide (y = x)); [eauto|].
    intros [?|Hx]%elem_of_cons; [congruence|].
    destruct (IH Hx) as [j ->]. simpl. eauto.
Qed.

(** [index] gives the first position of the value. *)
Lemma index_first l x i j :
  index l x = Some i → l !! j = Some x → (i ≤ j)%nat.
Proof.
  revert i j; induction l as [|y l IH]; intros i j; simpl; [done|].
  destruct (decide (y = x)) as [->|Hne].
  - intros [= <-] _. lia.
  - destruct (index l x) as [k|] eqn:E; simpl; [|done].
    intros [= <-]. destruct j as [|j]; simpl.
    + intros [= ?]. congruence.
    + intros Hj. specialize (IH k j eq_refl Hj). lia.
Qed.

(** Labels come out of [pd.unique] in the order of their first occurrences. *)
Lemma unique_from_order seen xs i j a b :
  unique_from seen xs !! i = Some a →
  unique_from seen xs !! j = Some b →
  (i < j)%nat →
  ∃ p q, index xs a = Some p ∧ index xs b = Some q ∧ (p < q)%nat.
Proof.
  revert seen i j; induction xs as [|y xs IH]; intros seen i j; simpl; [done|].
  destruct (decide (y ∈ seen)) as [Hy|Hy].
  - intros Ha Hb Hij.
    destruct (IH _ _ _ Ha Hb Hij) as (p & q & Hp & Hq & Hpq).
    assert (a ≠ y ∧ b ≠ y) as [Hay Hby].
    { apply list_elem_of_lookup_2, unique_from_elem in Ha, Hb. set_solver. }
    exists (S p), (S q).
    destruct (decide (y = a)); [congruence|].
    destruct (decide (y = b)); [congruence|].
    rewrite Hp, Hq. simpl. repeat split; auto. lia.
  - destruct i as [|i]; destruct j as [|j]; simpl; try lia.
    + intros [= ->] Hb _.
      apply list_elem_of_lookup_2, unique_from_elem in Hb as [Hb Hns].
      assert (a ≠ b) by set_solver.
      destruct (index_is_Some _ _ Hb) as [q Hq].
      exists 0%nat, (S q).
      destruct (decide (a = a)); [|congruence].
      destruct (decide (a = b)); [congruence|].
      rewrite Hq. simpl. repeat split; auto. lia.
    + intros Ha Hb Hij.
      destruct (IH _ _ _ Ha Hb ltac:(lia)) as (p & q & Hp & Hq & Hpq).
      assert (a ≠ y ∧ b ≠ y) as [Hay Hby].
      { apply list_elem_of_lookup_2, unique_from_elem in Ha, Hb. set_solver. }
      exists (S p), (S q).
      destruct (decide (y = a)); [congruence|].
      destruct (decide (y = b)); [congruence|].
      rewrite Hp, Hq. simpl. repeat split; auto. lia.
Qed.

Lemma elem_of_ravel funnel x :
  x ∈ ravel funnel ↔ ∃ e, e ∈ funnel ∧ (x = source e ∨ x = target e).
Proof.
  unfold ravel. rewrite list_elem_of_In, in_flat_map.
  split; intros (e & He & Hx); exists e.
  - apply list_elem_of_In in He. split; [done|].
    simpl in Hx. destruct Hx as [<-|[<-|[]]]; auto.
  - apply list_elem_of_In in He. split; [done|].
    simpl. destruct Hx as [->| ->]; auto.
Qed.

Lemma elem_of_labels funnel x :
  x ∈ pd_unique (ravel funnel) ↔
  ∃ e, e ∈ funnel ∧ (x = source e ∨ x = target e).
Proof.
  unfold pd_unique. rewrite unique_from_elem, <- elem_of_ravel. set_solver.
Qed.

(** Every lookup of [labels.index] made by the builder succeeds. *)
Lemma resolve_total funnel (f : FunnelEdge → string) :
  (∀ e, e ∈ funnel → f e = source e ∨ f e = target e) →
  is_Some (mapM (fun e => index (pd_unique (ravel funnel)) (f e)) funnel).
Proof.
  intros Hf. apply mapM_is_Some, Forall_forall. intros e He.
  apply index_is_Some, elem_of_labels. exists e. split; [done|].
  by apply Hf.
Qed.

(** The builder never fails: the figure it returns. *)
Lemma create_funnel_sankey_Some (funnel : list FunnelEdge) :
  ∃ ss ts,
    create_funnel_sankey funnel =
      Some (mkSankey (pd_unique (ravel funnel))
              (take (length (pd_unique (ravel funnel)))
                    (palette ++ palette ++ palette))
              ss ts (map f_value funnel)) ∧
    Forall2 (fun e s => index (pd_unique (ravel funnel)) (source e) = Some s)
            funnel ss ∧
    Forall2 (fun e t => index (pd_unique (ravel funnel)) (target e) = Some t)
            funnel ts.
Proof.
  unfold create_funnel_sankey.
  destruct (resolve_total funnel source) as [ss Hss]; [auto|].
  destruct (resolve_total funnel target) as [ts Hts]; [auto|].
  rewrite Hss, Hts. simpl. exists ss, ts.
  apply mapM_Some in Hss, Hts. auto.
Qed.

(** C1: [create_funnel_sankey] never fails; its node labels hold every
    source and target label exactly once, in the order in which the labels
    are first met when the edge table is read row by row (source, then
    target); the resolved source and target index of every edge point to a
    label equal to the edge's own string, and a label has one index only. *)
Theorem funnel_labels_and_indices (funnel : list FunnelEdge) :
  ∃ sk, create_funnel_sankey funnel = Some sk ∧
    NoDup (node_label sk) ∧
    (∀ x, x ∈ node_label sk ↔
          ∃ e, e ∈ funnel ∧ (x = source e ∨ x = target e)) ∧
    (∀ i j a b, node_label sk !! i = Some a → node_label sk !! j = Some b →
       (i < j)%nat →
       ∃ p q, index (ravel funnel) a = Some p ∧
              index (ravel funnel) b = Some q ∧ (p < q)%nat) ∧
    length (link_source sk) = length funnel ∧
    length (link_target sk) = length funnel ∧
    (∀ k e, funnel !! k = Some e →
       ∃ s t, link_source sk !! k = Some s ∧ link_target sk !! k = Some t ∧
              node_label sk !! s = Some (source e) ∧
              node_label sk !! t = Some (target e)) ∧
    (∀ i j x, node_label sk !! i = Some x → node_label sk !! j = Some x →
       i = j).
Proof.
  destruct (create_funnel_sankey_Some funnel) as (ss & ts & -> & Hss & Hts).
  eexists; split; [reflexivity|]. simpl.
  split; [apply unique_from_NoDup|].
  split; [apply elem_of_labels|].
  split; [apply unique_from_order|].
  split; [symmetry; eapply Forall2_length; eauto|].
  split; [symmetry; eapply Forall2_length; eauto|].
  split.
  - intros k e Hk.
    destruct (Forall2_lookup_l _ _ _ _ _ Hss Hk) as (s & Hs & Hsi).
    destruct (Forall2_lookup_l _ _ _ _ _ Hts Hk) as (t & Ht & Hti).
    exists s, t. repeat split; auto using index_Some_lookup.
  - intros i j x Hi Hj.
    eapply NoDup_lookup; eauto. apply unique_from_NoDup.
Qed.

Example sample_funnel_sankey :
  (node_label <$> create_funnel_sankey sample_funnel,
   link_source <$> create_funnel_sankey sample_funnel,
   link_target <$> create_funnel_sankey sample_funnel) =
  (Some ["Organic Search"; "MQL"; "Paid Search"; "Content Marketing";
         "Social Media"; "Direct"; "Email Marketing"; "Referrals"; "SQL";
         "Unqualified"; "Opportunity"; "No Opportunity"; "Lost"; "Won"],
   Some [0; 2; 3; 4; 5; 6; 7; 1; 1; 8; 8; 8; 8]%nat,
   Some [1; 1; 1; 1; 1; 1; 1; 8; 9; 10; 11; 12; 13]%nat).
Proof. vm_compute. reflexivity. Qed.

(** ** Stacked area chart: the tick dates *)

Lemma every_third_ind {A} (P : list A → Prop) :
  P [] → (∀ x, P [x]) → (∀ x y, P [x; y]) →
  (∀ x y z rest, P rest → P (x :: y :: z :: rest)) →
  ∀ l, P l.
Proof.
  intros H0 H1 H2 H3.
  assert (∀ l, P l ∧ P (tail l) ∧ P (tail (tail l))) as Hall.
  { induction l as [|x l (IH0 & IH1 & IH2)]; simpl.
    - auto.
    - repeat split; auto.
      destruct l as [|y [|z rest]]; simpl in *; auto. }
  intros l. apply Hall.
Qed.

(** Reading every third position from [a] on gives every third element. *)
Lemma lookup_stride3 {A} (m : list A) :
  ∀ (l : list A) (a : nat),
    (∀ j, (j < length m)%nat → l !! (a + j)%nat = m !! j) →
    omap (fun i => l !! i)
         (map (fun k => (a + k * 3)%nat) (seq 0 ((length m + 2) / 3))) =
    every_third m.
Proof.
  induction m as [|x|x y|x y z rest IH] using every_third_ind;
    intros l a Hl.
  - reflexivity.
  - pose proof (Hl 0%nat ltac:(simpl; lia)) as H0.
    rewrite Nat.add_0_r in H0. simpl. rewrite Nat.add_0_r, H0. reflexivity.
  - pose proof (Hl 0%nat ltac:(simpl; lia)) as H0.
    rewrite Nat.add_0_r in H0. simpl. rewrite Nat.add_0_r, H0. reflexivity.
  - replace ((length (x :: y :: z :: rest) + 2) / 3)%nat
      with (S ((length rest + 2) / 3)).
    2:{ simpl length. replace (S (S (S (length rest))) + 2)%nat
          with (length rest + 2 + 1 * 3)%nat by lia.
        rewrite Nat.div_add by lia. lia. }
    rewrite <- cons_seq, <- seq_shift.
    pose proof (Hl 0%nat ltac:(simpl; lia)) as H0.
    rewrite Nat.add_0_r in H0.
    rewrite map_cons. replace (a + 0 * 3)%nat with a by lia.
    cbn [omap list_omap]. rewrite H0. cbn [lookup list_lookup every_third]. f_equal.
    rewrite <- (IH l (a + 3)%nat).
    + f_equal. rewrite map_map.
      apply map_ext. intros k. lia.
    + intros j Hj. rewrite <- Nat.add_assoc.
      rewrite (Hl (3 + j)%nat) by (simpl; lia). reflexivity.
Qed.

Lemma py_range_stride3 (a b : nat) :
  (a ≤ b)%nat →
  py_range (Z.of_nat a) (Z.of_nat b) 3 =
  map (fun k => (a + k * 3)%nat) (seq 0 ((b - a + 2) / 3)).
Proof.
  intros Hab. unfold py_range.
  destruct (Z.ltb_spec (Z.of_nat a) (Z.of_nat b)) as [Hlt|Hge].
  - replace (Z.to_nat ((Z.of_nat b - Z.of_nat a + 3 - 1) / 3))
      with ((b - a + 2) / 3)%nat.
    2:{ replace (Z.of_nat b - Z.of_nat a + 3 - 1)%Z
          with (Z.of_nat (b - a + 2)) by lia.
        change 3%Z with (Z.of_nat 3). rewrite <- Nat2Z.inj_div. lia. }
    apply map_ext. intros k. lia.
  - replace (b - a + 2)%nat with 2%nat by lia. reflexivity.
Qed.

Lemma adjust_bound_Some (len i default : Z) :
  (0 ≤ len)%Z →
  adjust_bound len (Some i) default =
  Z.max 0 (Z.min len (if (i <? 0)%Z then (i + len)%Z else i)).
Proof.
  intros Hlen. unfold adjust_bound.
  destruct (i <? 0)%Z;
    repeat match goal with
           | |- context [(?x <? ?y)%Z] => destruct (Z.ltb_spec x y)
           | |- context [(?x <=? ?y)%Z] => destruct (Z.leb_spec x y)
           end; lia.
Qed.

(** A slice with step 3 between two positions of the list. *)
Lemma py_slice_stride3 {A} (l : list A) (start stop : option Z) (a b : nat) :
  adjust_bound (Z.of_nat (length l)) start 0 = Z.of_nat a →
  adjust_bound (Z.of_nat (length l)) stop (Z.of_nat (length l)) = Z.of_nat b →
  (a ≤ b ≤ length l)%nat →
  py_slice start stop 3 l = every_third (drop a (take b l)).
Proof.
  intros Ha Hb Hab. unfold py_slice. rewrite Ha, Hb.
  rewrite py_range_stride3 by lia.
  replace (b - a)%nat with (length (drop a (take b l)))
    by (rewrite length_drop, length_take; lia).
  apply lookup_stride3. intros j Hj.
  rewrite length_drop, length_take in Hj.
  rewrite lookup_drop, lookup_take_lt by lia. reflexivity.
Qed.

Lemma tick_dates_eq_spec {A} (dates : list A) :
  tick_dates dates = tick_dates_spec dates.
Proof.
  unfold tick_dates, tick_dates_spec.
  destruct (Nat.ltb_spec 4 (length dates)) as [Hlen|Hlen].
  - replace (2 * 2 <? Z.of_nat (length dates))%Z with true
      by (symmetry; apply Z.ltb_lt; lia).
    apply (py_slice_stride3 dates _ _ 2 (length dates - 2)); [| |lia].
    + rewrite adjust_bound_Some by lia. destruct (Z.ltb_spec 2 0); lia.
    + rewrite adjust_bound_Some by lia. destruct (Z.ltb_spec (Z.opp 2) 0); lia.
  - replace (2 * 2 <? Z.of_nat (length dates))%Z with false
      by (symmetry; apply Z.ltb_ge; lia).
    rewrite (py_slice_stride3 dates None None 0 (length dates));
      [|reflexivity|reflexivity|lia].
    rewrite take_ge by lia. reflexivity.
Qed.

(** C6: the tick values of the stacked area chart are every third date of
    the date column without its first two and last two dates when the
    column has more than four dates, and every third date of the whole
    column otherwise; the tick labels are these dates as month and year. *)
Theorem tick_dates_strided (channel : ChannelTable) :
  area_tickvals (create_channel_acquisition_chart channel) =
    tick_dates_spec (ch_date channel) ∧
  area_ticktext (create_channel_acquisition_chart channel) =
    map strftime_b_Y (tick_dates_spec (ch_date channel)).
Proof.
  unfold create_channel_acquisition_chart. cbn [area_tickvals area_ticktext].
  rewrite tick_dates_eq_spec. split; reflexivity.
Qed.

Example tick_dates_sample :
  map strftime_b_Y (tick_dates (date_range_MS 2022 3 2024 11)) =
  ["May 2022"; "Aug 2022"; "Nov 2022"; "Feb 2023"; "May 2023";
   "Aug 2023"; "Nov 2023"; "Feb 2024"; "May 2024"; "Aug 2024"].
Proof. vm_compute. reflexivity. Qed.

Example tick_dates_short :
  tick_dates [0; 1; 2; 3]%nat = [0; 3]%nat ∧
  tick_dates [0; 1; 2; 3; 4]%nat = [2]%nat.
Proof. vm_compute. auto. Qed.

(** ** KPI indicators and KPI cards *)

Lemma delta_text_symbol (row : MetricRow) :
  ∃ rest, delta_text row = (delta_symbol row ++ " " ++ rest)%string.
Proof.
  unfold delta_text. destruct (decide (m_suffix row = Some "M")); eauto.
Qed.

(** The cards built from a table and its own indicator figures. *)
Lemma generate_kpi_cards_html_Some (metrics : list MetricRow) :
  generate_kpi_cards_html metrics (create_kpi_indicators metrics) =
  Some (imap (fun i row =>
                mkCard (i + 1) (kpi_indicator row)
                       (if decide (i = 0%nat) then Cdn else NoPlotlyJs)
                       (delta_class row) (delta_text row)) metrics).
Proof.
  unfold generate_kpi_cards_html. apply mapM_Some.
  apply Forall2_same_length_lookup. split.
  - by rewrite !length_imap.
  - intros i [j row] card. rewrite !list_lookup_imap.
    destruct (metrics !! i) as [row'|] eqn:Hrow; simpl; [|done].
    intros [= <- <-] [= <-]. unfold kpi_card, create_kpi_indicators. simpl.
    rewrite list_lookup_fmap, Hrow. reflexivity.
Qed.

Lemma Qltb_0_delta (row : MetricRow) :
  ((0 < delta row)%Q ∧ Qltb 0 (delta row) = true) ∨
  (¬ (0 < delta row)%Q ∧ Qltb 0 (delta row) = false).
Proof.
  destruct (Qltb 0 (delta row)) eqn:Hb.
  - left. split; [by apply Qltb_lt|reflexivity].
  - right. split; [|reflexivity]. intros Hpos.
    apply Qltb_lt in Hpos. congruence.
Qed.

(** C4: the builders make one figure and one card per metric row.  For a
    row with a strictly positive delta the indicator builder chooses
    "green" and the up arrow, and the card has the class "positive",
    which the style sheet colors green (#27ae60), and a delta text that
    starts with the up arrow; for any other row the choices are "red" and
    the down arrow, the class "negative", colored red (#e74c3c), and the
    down arrow.  On the five sample rows there are five figures and five
    cards, the first (Monthly Recurring Revenue) positive and upward, the
    second (CAC Payback Period) negative and downward. *)
Theorem kpi_cards_sign (metrics : list MetricRow) :
  (∃ cards,
     generate_kpi_cards_html metrics (create_kpi_indicators metrics) = Some cards ∧
     length (create_kpi_indicators metrics) = length metrics ∧
     length cards = length metrics ∧
     ∀ i row, metrics !! i = Some row →
       ∃ card rest, cards !! i = Some card ∧
         ((0 < delta row)%Q →
            indicator_delta_color row = "green" ∧
            indicator_delta_symbol row = arrow_up ∧
            card_span_class card = "positive" ∧
            css_color (card_span_class card) = Some "#27ae60" ∧
            card_span_text card = (arrow_up_right ++ " " ++ rest)%string) ∧
         (¬ (0 < delta row)%Q →
            indicator_delta_color row = "red" ∧
            indicator_delta_symbol row = arrow_down ∧
            card_span_class card = "negative" ∧
            css_color (card_span_class card) = Some "#e74c3c" ∧
            card_span_text card = (arrow_down_right ++ " " ++ rest)%string)) ∧
  (∃ mrr cac c3 c4 c5,
     length (create_kpi_indicators sample_metrics) = 5%nat ∧
     generate_kpi_cards_html sample_metrics (create_kpi_indicators sample_metrics)
       = Some [mrr; cac; c3; c4; c5] ∧
     card_span_class mrr = "positive" ∧
     card_span_text mrr = (arrow_up_right ++ " 4.2%")%string ∧
     card_span_class cac = "negative" ∧
     card_span_text cac = (arrow_down_right ++ " -0.9mo")%string).
Proof.
  split.
  - rewrite generate_kpi_cards_html_Some. eexists. split; [reflexivity|].
    split; [apply length_map|].
    split; [apply length_imap|].
    intros i row Hrow. rewrite list_lookup_imap, Hrow. simpl.
    destruct (delta_text_symbol row) as [rest Hrest].
    eexists _, rest. split; [reflexivity|]. simpl.
    rewrite Hrest.
    unfold indicator_delta_color, indicator_delta_symbol, delta_class,
      delta_symbol.
    destruct (Qltb_0_delta row) as [[Hpos ->]|[Hneg ->]].
    + split; [intros _; repeat split|intros Hneg; contradiction].
    + split; [intros Hpos; contradiction|intros _; repeat split].
  - rewrite generate_kpi_cards_html_Some. vm_compute. eauto 12.
Qed.

Lemma kpi_cards_sign_witness :
  ∃ cards card rest,
    generate_kpi_cards_html sample_metrics (create_kpi_indicators sample_metrics)
      = Some cards ∧
    length cards = 5%nat ∧
    cards !! 1%nat = Some card ∧
    card_span_class card = "negative" ∧
    card_span_text card = (arrow_down_right ++ " " ++ rest)%string.
Proof.
  destruct (kpi_cards_sign sample_metrics)
    as [(cards & Hcards & _ & Hlen & Hrows) _].
  destruct (Hrows 1%nat _ eq_refl) as (card & rest & Hcard & _ & Hneg).
  destruct (Hneg ltac:(discriminate)) as (_ & _ & Hclass & _ & Htext).
  exists cards, card, rest. repeat split; assumption.
Defined.

Lemma kpi_indicator_same_but_delta (r1 r2 : MetricRow) :
  same_but_delta r1 r2 → kpi_indicator r1 = kpi_indicator r2.
Proof.
  intros (Hm & Hv & Hp & Hs). unfold kpi_indicator.
  rewrite Hm, Hv, Hp, Hs. reflexivity.
Qed.

(** C10: two metric tables that agree on every column except delta give
    the same indicator figures. *)
Theorem create_kpi_indicators_ignores_delta (m1 m2 : list MetricRow) :
  Forall2 same_but_delta m1 m2 →
  create_kpi_indicators m1 = create_kpi_indicators m2.
Proof.
  unfold create_kpi_indicators.
  induction 1 as [|r1 r2 l1 l2 Hr _ IH]; simpl; [reflexivity|].
  rewrite IH. f_equal. by apply kpi_indicator_same_but_delta.
Qed.

Lemma create_kpi_indicators_ignores_delta_witness :
  let flipped :=
    map (fun r => mkMetric (metric r) (m_value r) (- delta r)%Q
                           (m_prefix r) (m_suffix r)) sample_metrics in
  Forall2 same_but_delta sample_metrics flipped ∧
  create_kpi_indicators sample_metrics = create_kpi_indicators flipped.
Proof.
  assert (Forall2 same_but_delta sample_metrics
            (map (fun r => mkMetric (metric r) (m_value r) (- delta r)%Q
                                    (m_prefix r) (m_suffix r)) sample_metrics))
    as Hagree.
  { unfold sample_metrics. simpl.
    repeat constructor. }
  split; [exact Hagree|].
  exact (create_kpi_indicators_ignores_delta _ _ Hagree).
Defined.

(** The card layer does depend on delta: the same row with the opposite
    delta gets the other class and the other arrow. *)
Example kpi_card_depends_on_delta :
  let r1 := mkMetric "LTV:CAC Ratio" (dbl 48 10) (dbl 5 10) None (Some "x") in
  let r2 := mkMetric "LTV:CAC Ratio" (dbl 48 10) (dbl (-5) 10) None (Some "x") in
  same_but_delta r1 r2 ∧ kpi_indicator r1 = kpi_indicator r2 ∧
  delta_class r1 = "positive" ∧ delta_class r2 = "negative" ∧
  delta_text r1 = (arrow_up_right ++ " 0.5x")%string ∧
  delta_text r2 = (arrow_down_right ++ " -0.5x")%string.
Proof. vm_compute. repeat split. Qed.

(** ** The renderer's entry point *)

Ltac next_file Hst Hbefore :=
  match type of Hst with
  | status ?f :: _ = ?before ++ _ =>
      destruct f; simpl in Hst;
      [ (* missing *)
      | (* unreadable *)
        exfalso; destruct before; simpl in Hst;
        [discriminate Hst | inversion Hbefore; subst; discriminate Hst]
      | (* present *)
        destruct before as [|? before]; simpl in Hst;
        [ discriminate Hst
        | apply (f_equal tail) in Hst; simpl in Hst;
          apply Forall_cons in Hbefore as [_ Hbefore] ] ]
  end.

(** C5, as amended: when a data file is missing and every file that the
    loader reads before it is read well, the renderer prints the message
    naming the missing file and the instruction to run the generator,
    returns normally, and neither creates the output directory nor writes
    the output file. *)
Theorem main_missing_file (w : World) :
  reads_well_until_missing (data_dir w) →
  refuses_cleanly w ∧
  ∃ filename,
    main w =
    (mkWorld (data_dir w) (output_dir w) (output_file w)
       (stdout w ++
        [ "Creating SaaS Business Dashboard...";
          ("Error loading data: [Errno 2] No such file or directory: '"
             ++ filename ++ "'")%string;
          run_generator_message ]),
     Ok tt).
Proof.
  intros (before & after & Hst & Hbefore).
  assert (∃ filename,
    main w =
    (mkWorld (data_dir w) (output_dir w) (output_file w)
       (stdout w ++
        [ "Creating SaaS Business Dashboard...";
          ("Error loading data: [Errno 2] No such file or directory: '"
             ++ filename ++ "'")%string;
          run_generator_message ]),
     Ok tt)) as [filename Hmain].
  { destruct w as [[m c a f co ad] odir ofile out].
    unfold file_statuses in Hst. simpl in Hst.
    cbv [main load_data except_FileNotFoundError bind read_csv print ret
         data_dir output_dir output_file stdout metrics_csv
         channel_acquisition_csv arr_movement_csv funnel_data_csv
         cohort_data_csv additional_metrics_csv file_not_found_message].
    next_file Hst Hbefore;
      [eexists; rewrite <- !app_assoc; reflexivity|].
    next_file Hst Hbefore;
      [eexists; rewrite <- !app_assoc; reflexivity|].
    next_file Hst Hbefore;
      [eexists; rewrite <- !app_assoc; reflexivity|].
    next_file Hst Hbefore;
      [eexists; rewrite <- !app_assoc; reflexivity|].
    next_file Hst Hbefore;
      [eexists; rewrite <- !app_assoc; reflexivity|].
    next_file Hst Hbefore;
      [eexists; rewrite <- !app_assoc; reflexivity|].
    destruct before; discriminate. }
  split; [|eauto].
  unfold refuses_cleanly. rewrite Hmain. simpl.
  repeat split; auto.
  rewrite elem_of_app. right. rewrite !elem_of_cons. auto.
Qed.

Lemma main_missing_file_witness :
  reads_well_until_missing (data_dir world_missing_metrics) ∧
  refuses_cleanly world_missing_metrics.
Proof.
  assert (reads_well_until_missing (data_dir world_missing_metrics)) as H.
  { exists [], (replicate 5 FilePresent). split; [reflexivity|constructor]. }
  split; [exact H|].
  exact (proj1 (main_missing_file world_missing_metrics H)).
Defined.

(** With a missing file the run is not always a clean refusal: when
    [data/metrics.csv] is there but empty, [pd.read_csv] raises an error
    that [load_data] does not catch, before the missing
    [data/channel_acquisition.csv] is looked for; the run ends with that
    error and the instruction is not printed. *)
Lemma main_missing_file_after_unreadable :
  some_file_missing (data_dir world_empty_metrics) ∧
  main world_empty_metrics =
    (mkWorld (data_dir world_empty_metrics) false None
             ["Creating SaaS Business Dashboard..."],
     Raise (ParserError "data/metrics.csv")) ∧
  ¬ refuses_cleanly world_empty_metrics.
Proof.
  split; [|split].
  - unfold some_file_missing, file_statuses. simpl. rewrite !elem_of_cons. auto.
  - reflexivity.
  - intros [Hret _]. vm_compute in Hret. discriminate.
Qed.

(** Whatever the run ends with, nothing is written unless all six files
    were read. *)
Lemma main_no_output_without_data (w : World) (st : FileStatus) :
  st ∈ file_statuses (data_dir w) → st ≠ FilePresent →
  output_file (main w).1 = output_file w ∧
  output_dir (main w).1 = output_dir w.
Proof.
  intros Hin Hne.
  destruct w as [[m c a f co ad] odir ofile out].
  unfold file_statuses in Hin. simpl in Hin.
  rewrite !elem_of_cons, elem_of_nil in Hin.
  destruct m, c, a, f, co, ad; simpl in Hin;
    try (split; reflexivity);
    exfalso; destruct Hin as [->|[->|[->|[->|[->|[->|[]]]]]]]; congruence.
Qed.

(** With all six files readable the run builds the page from the tables
    and writes it. *)
Lemma main_writes_dashboard (w : World) metrics channel arr funnel cohort additional :
  data_dir w =
    mkDataDir (Table metrics) (Table channel) (Table arr) (Table funnel)
              (Table cohort) (Table additional) →
  ∃ page,
    (main w).2 = Ok tt ∧
    output_file (main w).1 = Some page ∧
    output_dir (main w).1 = true ∧
    generate_kpi_cards_html metrics (create_kpi_indicators metrics)
      = Some (page_kpi_cards page) ∧
    page_area page = create_channel_acquisition_chart channel ∧
    page_waterfall page = create_arr_waterfall arr ∧
    create_funnel_sankey funnel = Some (page_sankey page) ∧
    page_heatmap page = create_cohort_heatmap cohort.
Proof.
  intros Hdir.
  destruct (create_funnel_sankey_Some funnel) as (ss & ts & Hsk & _).
  pose proof (generate_kpi_cards_html_Some metrics) as Hcards.
  destruct w as [d odir ofile out]. simpl in Hdir. subst d.
  cbv [main load_data except_FileNotFoundError bind read_csv print ret
       data_dir output_dir output_file stdout metrics_csv
       channel_acquisition_csv arr_movement_csv funnel_data_csv
       cohort_data_csv additional_metrics_csv ensure_output_directory
       create_dashboard_html of_option write_output].
  rewrite Hsk, Hcards. simpl.
  eexists. repeat split; reflexivity.
Qed.

(** ** Generator: clipping *)

Lemma clip_lower (x lo : Q) : (lo <= clip x (Some lo) None)%Q.
Proof. unfold clip. apply Q.le_max_r. Qed.

Lemma clip_range (x lo hi : Q) :
  (lo <= hi)%Q → (lo <= clip x (Some lo) (Some hi) <= hi)%Q.
Proof.
  intros Hlohi. unfold clip. split.
  - apply Q.min_glb; [apply Q.le_max_r|exact Hlohi].
  - apply Q.le_min_r.
Qed.

Lemma trunc_nonneg (x : Q) : (0 <= x)%Q → trunc x = Qfloor x.
Proof.
  intros Hx. unfold trunc, Qltb.
  apply Qle_bool_iff in Hx. rewrite Hx. reflexivity.
Qed.

(** A clipped value that fits 64 bits is written as an integer that is at
    least the floor of the clip. *)
Lemma astype_int_clip (x : Q) :
  (x < inject_Z (2 ^ 63))%Q →
  (50 ≤ astype_int (clip x (Some 50%Q) None))%Z.
Proof.
  intros Hx. unfold astype_int.
  pose proof (clip_lower x 50) as Hlo.
  set (y := clip x (Some 50%Q) None) in *.
  assert (y < inject_Z (2 ^ 63))%Q as Hhi.
  { unfold y, clip. apply Q.max_lub_lt; [exact Hx|reflexivity]. }
  rewrite trunc_nonneg by lra.
  assert (50 ≤ Qfloor y)%Z as H50.
  { change 50%Z with (Qfloor (inject_Z 50)) at 1. by apply Qfloor_resp_le. }
  assert (Qfloor y < 2 ^ 63)%Z as H63.
  { pose proof (Qfloor_le y) as Hfl.
    assert (inject_Z (Qfloor y) < inject_Z (2 ^ 63))%Q as Hlt by lra.
    by rewrite <- Zlt_Qlt in Hlt. }
  destruct (Z.leb_spec (- 2 ^ 63) (Qfloor y)); [|lia].
  destruct (Z.ltb_spec (Qfloor y) (2 ^ 63)); [|lia].
  simpl. exact H50.
Qed.

Lemma elem_of_concat_intro {A} (x : A) (l : list A) (ls : list (list A)) :
  l ∈ ls → x ∈ l → x ∈ concat ls.
Proof.
  intros Hl Hx. apply list_elem_of_In, in_concat.
  exists l. split; by apply list_elem_of_In.
Qed.

(** C7: every value of every channel column of the generated table is an
    integer that is at least 50, the values before the clip being within
    the 64-bit range, as sums of a trend, a seasonal term and a normal
    draw are. *)
Theorem channel_values_floor (np_sin : Q → Q) (noise : nat → list Q) :
  Forall (fun x => x < inject_Z (2 ^ 63))%Q (channel_raw_values np_sin noise) →
  Forall (fun column => Forall (fun v => 50 ≤ v)%Z column.2)
         (ch_columns (generate_channel_acquisition np_sin noise)).
Proof.
  intros Hraw. unfold generate_channel_acquisition. cbn [ch_columns].
  apply Forall_forall. intros [name column] Hcol.
  apply list_elem_of_lookup in Hcol as [i Hcol].
  rewrite list_lookup_imap in Hcol.
  destruct (channels !! i) as [channel|] eqn:Hch;
    cbn -[date_range_MS channel_column] in Hcol; [|done].
  injection Hcol as <- <-. cbn [snd].
  unfold channel_column. apply Forall_fmap, Forall_forall.
  intros x Hx. cbv [compose]. apply astype_int_clip.
  rewrite Forall_forall in Hraw. apply Hraw.
  unfold channel_raw_values.
  eapply elem_of_concat_intro; [|exact Hx].
  apply list_elem_of_lookup. exists i.
  rewrite list_lookup_imap, Hch. reflexivity.
Qed.

Lemma channel_values_floor_witness :
  let np_sin := fun _ : Q => 0%Q in
  let noise := fun i : nat => repeat (inject_Z (Z.of_nat i) * (-100))%Q 33 in
  Forall (fun x => x < inject_Z (2 ^ 63))%Q (channel_raw_values np_sin noise) ∧
  Forall (fun column => Forall (fun v => 50 ≤ v)%Z column.2)
         (ch_columns (generate_channel_acquisition np_sin noise)).
Proof.
  intros np_sin noise.
  assert (Forall (fun x => x < inject_Z (2 ^ 63))%Q
                 (channel_raw_values np_sin noise)) as Hraw.
  { apply Forall_Qltb. vm_compute. reflexivity. }
  split; [exact Hraw|].
  exact (channel_values_floor np_sin noise Hraw).
Defined.

(** C8: every cell of every row of the generated cohort table lies
    between 45 and 100, the seasonal adjustment being followed by a second
    clip. *)
Theorem cohort_values_range (np_sin : Q → Q) (num_cohorts months : nat)
    (early_declines later_declines : nat → list Q) :
  Forall (Forall (fun v => 45 <= v <= 100)%Q)
         (co_cells (generate_cohort_data np_sin num_cohorts months
                      early_declines later_declines)).
Proof.
  unfold generate_cohort_data. cbn [co_cells].
  apply Forall_forall. intros row Hrow.
  apply list_elem_of_lookup in Hrow as [i Hrow].
  rewrite list_lookup_imap in Hrow.
  destruct (_ !! i) as [name|]; simpl in Hrow; [|done].
  injection Hrow as <-.
  unfold cohort_retention. apply Forall_fmap, Forall_forall.
  intros x _. cbv [compose]. apply clip_range. lra.
Qed.

(** ** Rounding *)

Lemma rne_error (q : Q) : (Qabs (inject_Z (rne q) - q) <= 1 # 2)%Q.
Proof.
  unfold rne.
  pose proof (Qfloor_le q) as Hlo. pose proof (Qlt_floor q) as Hhi.
  rewrite inject_Z_plus in Hhi. change (inject_Z 1) with 1%Q in Hhi.
  apply Qabs_Qle_condition.
  destruct (Qcompare_spec (q - inject_Z (Qfloor q)) (1 # 2)) as [He|Hl|Hg].
  - destruct (Z.even (Qfloor q)); rewrite ?inject_Z_plus;
      change (inject_Z 1) with 1%Q; split; lra.
  - split; lra.
  - rewrite inject_Z_plus. change (inject_Z 1) with 1%Q. split; lra.
Qed.

(** The nearest integer of a value between two integers lies between
    them. *)
Lemma rne_between (y : Q) (a b : Z) :
  (inject_Z a <= y <= inject_Z b)%Q → (a ≤ rne y ≤ b)%Z.
Proof.
  intros [Ha Hb]. unfold rne.
  assert (a ≤ Qfloor y)%Z as Hfa.
  { rewrite <- (Qfloor_Z a). by apply Qfloor_resp_le. }
  assert (Qfloor y ≤ b)%Z as Hfb.
  { rewrite <- (Qfloor_Z b). by apply Qfloor_resp_le. }
  destruct (Z.eq_dec (Qfloor y) b) as [Heq|Hne].
  - pose proof (Qfloor_le y) as Hfl. rewrite Heq in Hfl.
    assert (y - inject_Z (Qfloor y) == 0)%Q as Hzero by (rewrite Heq; lra).
    destruct (Qcompare_spec (y - inject_Z (Qfloor y)) (1 # 2)) as [H|H|H];
      [lra|lia|lra].
  - destruct (y - inject_Z (Qfloor y) ?= 1 # 2)%Q;
      [destruct (Z.even (Qfloor y))|..]; lia.
Qed.

Lemma pow2_pos (k : Z) : (0 < pow2 k)%Q.
Proof. apply Qpower_0_lt. reflexivity. Qed.

Lemma pow2_inject (k : Z) : (0 ≤ k)%Z → (pow2 k == inject_Z (2 ^ k))%Q.
Proof. intros Hk. unfold pow2. by rewrite Zpower_Qpower. Qed.

(** The binary exponent of a positive value below [2 ^ b] is below [b]. *)
Lemma ilog2_upper (q : Q) (b : Z) :
  (0 ≤ b)%Z → (0 < q)%Q → (q < pow2 b)%Q → (ilog2 q < b)%Z.
Proof.
  intros Hb Hpos Hq. unfold ilog2.
  set (e0 := (Z.log2 (Qnum q) - Z.log2 (Z.pos (Qden q)))%Z).
  destruct (Qltb q (pow2 e0)) eqn:Hbranch.
  - assert (e0 ≤ b)%Z; [|lia].
    destruct q as [n d]. unfold e0. simpl Qnum in *. simpl Qden in *.
    assert (0 < n)%Z as Hn.
    { unfold Qlt in Hpos. simpl in Hpos. lia. }
    rewrite pow2_inject in Hq by exact Hb.
    unfold Qlt in Hq. simpl in Hq.
    pose proof (Z.log2_spec (Z.pos d) ltac:(lia)) as [_ Hd].
    assert (n < 2 ^ (b + Z.succ (Z.log2 (Z.pos d))))%Z as Hlt.
    { rewrite Z.pow_add_r by (pose proof (Z.log2_nonneg (Z.pos d)); lia).
      assert (0 < 2 ^ b)%Z by (apply Z.pow_pos_nonneg; lia).
      nia. }
    apply Z.log2_lt_pow2 in Hlt; [lia|exact Hn].
  - apply (Qpower_lt_compat_l_inv 2); [|reflexivity].
    fold (pow2 e0). fold (pow2 b).
    assert (pow2 e0 <= q)%Q; [|lra].
    apply Qnot_lt_le. intros Hlt. apply Qltb_lt in Hlt. congruence.
Qed.

(** Rounding to a double moves a value below [2 ^ b] by at most half a
    unit in the last place, which is at most [2 ^ (b - 54)]. *)
Lemma fl_error (x : Q) (b : Z) :
  (0 ≤ b)%Z → (Qabs x < pow2 b)%Q →
  (Qabs (fl x - x) <= pow2 (b - 54))%Q.
Proof.
  intros Hb Hx. unfold fl.
  destruct (Qeq_bool x 0) eqn:Hzero.
  - apply Qeq_bool_iff in Hzero.
    pose proof (pow2_pos (b - 54)).
    apply Qabs_Qle_condition. split; lra.
  - apply Qeq_bool_neq in Hzero.
    assert (0 < Qabs x)%Q as Hpos.
    { pose proof (Qabs_nonneg x) as Hnn.
      destruct (Qlt_le_dec 0 (Qabs x)) as [?|Hle]; [done|].
      exfalso. apply Hzero.
      assert (Qabs x == 0)%Q as H0 by lra.
      revert H0. apply Qabs_case; intros; lra. }
    pose proof (ilog2_upper (Qabs x) b Hb Hpos Hx) as He.
    set (k := Z.max (ilog2 (Qabs x) - 52) (-1074)).
    assert (k ≤ b - 53)%Z as Hk by lia.
    rewrite Qred_correct.
    pose proof (pow2_pos k) as Hpk.
    pose proof (rne_error (x / pow2 k)) as Hr.
    assert (x == (x / pow2 k) * pow2 k)%Q as Hxy.
    { field. lra. }
    set (y := (x / pow2 k)%Q) in *.
    assert (pow2 k <= pow2 (b - 53))%Q as Hmono.
    { apply Qpower_le_compat_l; [exact Hk|discriminate]. }
    assert (pow2 (b - 53) == 2 * pow2 (b - 54))%Q as Hhalf.
    { unfold pow2. replace (b - 53)%Z with (1 + (b - 54))%Z by lia.
      rewrite Qpower_plus by discriminate. reflexivity. }
    apply Qabs_Qle_condition in Hr. apply Qabs_Qle_condition.
    clearbody y. clear Hx Hpos He Hzero.
    set (p := pow2 k) in *. set (P := pow2 (b - 53)) in *.
    set (h := pow2 (b - 54)) in *. set (r := inject_Z (rne y)) in *.
    clearbody p P h r.
    assert (r * p - x == (r - y) * p)%Q as -> by (rewrite Hxy; ring).
    split; nra.
Qed.

(** A rounded sum below [2 ^ 26] is within [2 ^ -28] of the exact sum. *)
Lemma fadd_error (a b : Q) :
  (- (67108864) < a + b < 67108864)%Q →
  (- (1 # 268435456) <= fadd a b - (a + b) <= 1 # 268435456)%Q.
Proof.
  intros Hab. apply Qabs_Qle_condition.
  change (1 # 268435456)%Q with (pow2 (26 - 54)).
  apply fl_error; [lia|].
  apply Qabs_Qlt_condition. exact Hab.
Qed.

(** ** Generator: ARR movement *)

(** C9: with the four draws in the ranges that [np.random.uniform] is
    called with, the ending value of the generated ARR movement table
    equals the starting value plus the four relative rows within the
    relative tolerance [1e-6]. *)
Theorem arr_movement_balances (u1 u2 u3 u4 : Q) :
  (1500000 <= u1 <= 2500000)%Q →
  (800000 <= u2 <= 1500000)%Q →
  (200000 <= u3 <= 600000)%Q →
  (100000 <= u4 <= 500000)%Q →
  balances (generate_arr_movement u1 u2 u3 u4).
Proof.
  intros H1 H2 H3 H4. unfold balances, generate_arr_movement.
  split; [reflexivity|]. cbn [map a_value].
  pose proof (fadd_error 28000000 u1 ltac:(lra)) as E1.
  set (s1 := fadd 28000000 u1) in *.
  pose proof (fadd_error s1 u2 ltac:(lra)) as E2.
  set (s2 := fadd s1 u2) in *.
  pose proof (fadd_error s2 (- u3) ltac:(lra)) as E3.
  set (s3 := fadd s2 (- u3)) in *.
  pose proof (fadd_error s3 (- u4) ltac:(lra)) as E4.
  set (s4 := fadd s3 (- u4)) in *.
  clearbody s1 s2 s3 s4. unfold tolerance.
  assert (0 <= 28000000 + u1 + u2 + - u3 + - u4)%Q as Htotal by lra.
  assert (0 <= s4)%Q as Hending by lra.
  rewrite (Qabs_pos _ Htotal), (Qabs_pos _ Hending).
  split; apply Qabs_Qle_condition; split; lra.
Qed.

Lemma arr_movement_balances_witness :
  (1500000 <= fl 2196469.185597818 <= 2500000)%Q ∧
  balances (generate_arr_movement (fl 2196469.185597818) (fl 1000297.53435801)
                                  (fl 290740.58128281) (fl 320525.9076)).
Proof.
  split; [vm_compute; split; discriminate|].
  apply arr_movement_balances; vm_compute; split; discriminate.
Defined.

(** ** ARR waterfall: the display text *)

Lemma append_empty_r (s : string) : (s ++ "")%string = s.
Proof.
  induction s as [|c s IH]; [reflexivity|].
  change (String c (s ++ "")%string = String c s). by rewrite IH.
Qed.

(** One decimal: the digits of the nearest tenth, a point before the last. *)
Lemma format_fixed_1 (x : Q) :
  ∃ n : Z,
    (Qabs (inject_Z n - 10 * Qabs x) <= 1 # 2)%Q ∧
    format_fixed 1 x =
      (sign_of x ++ dec (n / 10) ++ "." ++ String (digit_char (n mod 10)) "")%string.
Proof.
  exists (rne (Qabs x * pow10 1)). split.
  - pose proof (rne_error (Qabs x * pow10 1)) as Hr.
    change (pow10 1) with 10%Q in *.
    apply Qabs_Qle_condition in Hr. apply Qabs_Qle_condition.
    destruct Hr. split; lra.
  - unfold format_fixed. change (10 ^ Z.of_nat 1)%Z with 10%Z.
    cbn [dec_fixed Z.of_nat Pos.of_succ_nat].
    rewrite Z.mod_mod by lia. reflexivity.
Qed.

(** No decimal: the digits of the nearest integer. *)
Lemma format_fixed_0 (x : Q) :
  ∃ n : Z,
    (Qabs (inject_Z n - Qabs x) <= 1 # 2)%Q ∧
    format_fixed 0 x = (sign_of x ++ dec n)%string.
Proof.
  exists (rne (Qabs x * pow10 0)). split.
  - pose proof (rne_error (Qabs x * pow10 0)) as Hr.
    change (pow10 0) with 1%Q in *.
    apply Qabs_Qle_condition in Hr. apply Qabs_Qle_condition.
    destruct Hr. split; lra.
  - unfold format_fixed. change (10 ^ Z.of_nat 0)%Z with 1%Z.
    cbv beta iota zeta. rewrite Z.div_1_r, append_empty_r. reflexivity.
Qed.

(** The text of every bar is [format_value] of the row's value. *)
Lemma create_arr_waterfall_text (arr : list ArrRow) :
  wf_text (create_arr_waterfall arr) = map (fun r => format_value (a_value r)) arr.
Proof. reflexivity. Qed.

(** C2, as amended: the magnitude of the value decides.  A value whose
    absolute value is at least 1,000,000 is shown as "$X.XM", the value in
    millions with one decimal; any other value is shown as "$XK", the
    value in thousands rounded to an integer.  A negative value keeps its
    sign after the dollar sign. *)
Theorem format_value_rule (val : Q) :
  value_rule Qabs val ∧
  (∃ n : Z,
     (Qabs (inject_Z n - 10 * Qabs (fdiv val 1000000)) <= 1 # 2)%Q ∧
     millions_text val =
       ("$" ++ (sign_of (fdiv val 1000000) ++ dec (n / 10) ++ "." ++
                String (digit_char (n mod 10)) "") ++ "M")%string) ∧
  (∃ n : Z,
     (Qabs (inject_Z n - Qabs (fdiv val 1000)) <= 1 # 2)%Q ∧
     thousands_text val =
       ("$" ++ (sign_of (fdiv val 1000) ++ dec n) ++ "K")%string).
Proof.
  split; [|split].
  - unfold value_rule, format_value, millions_text, thousands_text.
    destruct (Qle_bool 1000000 (Qabs val)) eqn:Hbig.
    + split; [reflexivity|]. intros Hsmall.
      apply Qle_bool_iff in Hbig. lra.
    + split; [|reflexivity]. intros Hge.
      apply Qle_bool_iff in Hge. congruence.
  - destruct (format_fixed_1 (fdiv val 1000000)) as (n & Hn & Htext).
    exists n. split; [exact Hn|]. unfold millions_text. by rewrite Htext.
  - destruct (format_fixed_0 (fdiv val 1000)) as (n & Hn & Htext).
    exists n. split; [exact Hn|]. unfold thousands_text. by rewrite Htext.
Qed.

Lemma format_value_rule_witness :
  (1000000 <= Qabs (-2000000))%Q ∧
  format_value (-2000000)%Q = millions_text (-2000000)%Q.
Proof.
  split; [discriminate|].
  exact (proj1 (proj1 (format_value_rule (-2000000)%Q)) ltac:(discriminate)).
Defined.

(** The rule that compares the value itself with one million fails on a
    large negative value: -2,000,000 is below one million and is shown as
    "$-2.0M", not as "$-2000K". *)
Lemma value_rule_signed_fails :
  format_value (-2000000)%Q = "$-2.0M" ∧
  thousands_text (-2000000)%Q = "$-2000K" ∧
  ¬ value_rule (fun val => val) (-2000000)%Q.
Proof.
  split; [vm_compute; reflexivity|].
  split; [vm_compute; reflexivity|].
  intros [_ Hsmall]. specialize (Hsmall ltac:(reflexivity)).
  vm_compute in Hsmall. discriminate.
Qed.

Example format_value_samples :
  map (fun val => format_value (fl val))
      [28000000; 2196469.185597818; -290740.58128281; -400; 999500;
       1150000; 1250000]%Q =
  ["$28.0M"; "$2.2M"; "$-291K"; "$-0K"; "$1000K"; "$1.1M"; "$1.2M"].
Proof. vm_compute. reflexivity. Qed.

Example cohort_retention_steepest :
  cohort_retention (fun _ => 0%Q) 12 0 [6; 6; 6; 6; 6; 6]%Q [4; 4; 4; 4; 4; 4]%Q =
  [94; 88; 82; 76; 70; 64; 60; 56; 52; 48; 45; 45]%Q.
Proof. vm_compute. reflexivity. Qed.

Example channel_table_shape :
  map (fun column => (column.1, length column.2))
      (ch_columns (generate_channel_acquisition (fun _ => 0%Q) (fun _ => repeat 0%Q 33))) =
  map (fun channel => (channel, 33%nat)) channels.
Proof. vm_compute. reflexivity. Qed.

(** ** KPI cards: the text of the delta *)

Lemma string_app_assoc (s t u : string) :
  ((s ++ t) ++ u)%string = (s ++ t ++ u)%string.
Proof.
  induction s as [|c s IH]; [reflexivity|].
  change (String c ((s ++ t) ++ u)%string = String c (s ++ t ++ u)%string).
  by rewrite IH.
Qed.

(** A whole number below [2 ^ 53] is a double. *)
Lemma fl_inject_Z (n : Z) :
  (Z.abs n < 2 ^ 53)%Z → fl (inject_Z n) = inject_Z n.
Proof.
  intros Hn. unfold fl.
  destruct (Qeq_bool (inject_Z n) 0) eqn:Hzero.
  - apply Qeq_bool_iff in Hzero. unfold Qeq in Hzero. simpl in Hzero.
    replace n with 0%Z by lia. reflexivity.
  - apply Qeq_bool_neq in Hzero.
    assert (n ≠ 0)%Z as Hn0 by (intros ->; by apply Hzero).
    change (Qabs (inject_Z n)) with (inject_Z (Z.abs n)).
    set (k := Z.max (ilog2 (inject_Z (Z.abs n)) - 52) (-1074)).
    assert (k ≤ 0)%Z as Hk.
    { assert (ilog2 (inject_Z (Z.abs n)) < 53)%Z; [|lia].
      apply ilog2_upper; [lia| |].
      - change 0%Q with (inject_Z 0). rewrite <- Zlt_Qlt. lia.
      - rewrite pow2_inject by lia. rewrite <- Zlt_Qlt. exact Hn. }
    rewrite <- (inject_Z_Qred n). apply Qred_complete.
    rewrite inject_Z_Qred.
    pose proof (pow2_pos k) as Hpk.
    assert (pow2 (- k) == inject_Z (2 ^ (- k)))%Q as Hinv
      by (apply pow2_inject; lia).
    assert (pow2 (- k) * pow2 k == 1)%Q as Hone.
    { unfold pow2. rewrite <- Qpower_plus by discriminate.
      replace (- k + k)%Z with 0%Z by lia. reflexivity. }
    assert (inject_Z n / pow2 k == inject_Z (n * 2 ^ (- k)))%Q as Hdiv.
    { rewrite inject_Z_mult, <- Hinv. unfold Qdiv, pow2.
      rewrite Qpower_opp. reflexivity. }
    assert (rne (inject_Z n / pow2 k) = n * 2 ^ (- k))%Z as ->.
    { pose proof (rne_between (inject_Z n / pow2 k) (n * 2 ^ (- k))
                              (n * 2 ^ (- k))) as H.
      assert (rne (inject_Z n / pow2 k) ≤ n * 2 ^ (- k) ∧
              n * 2 ^ (- k) ≤ rne (inject_Z n / pow2 k))%Z; [|lia].
      split; apply H; split; rewrite Hdiv; apply Qle_refl. }
    rewrite inject_Z_mult, <- Hinv, <- Qmult_assoc, Hone. ring.
Qed.

Lemma sign_of_inject_Z (n : Z) :
  sign_of (inject_Z n) = if (n <? 0)%Z then "-" else "".
Proof.
  unfold sign_of.
  destruct (Z.ltb_spec n 0) as [Hlt|Hge].
  - replace (Qltb (inject_Z n) 0) with true; [reflexivity|].
    symmetry. apply Qltb_lt. rewrite (Zlt_Qlt n 0) in Hlt. exact Hlt.
  - destruct (Qltb (inject_Z n) 0) eqn:Hb; [|reflexivity].
    apply Qltb_lt in Hb. change 0%Q with (inject_Z 0) in Hb.
    rewrite <- Zlt_Qlt in Hb. lia.
Qed.

(** One decimal of a whole number: its digits and ".0". *)
Lemma format_fixed_1_inject_Z (n : Z) :
  format_fixed 1 (inject_Z n) = (int_str n ++ ".0")%string.
Proof.
  unfold format_fixed, int_str.
  change (Qabs (inject_Z n)) with (inject_Z (Z.abs n)).
  assert (rne (inject_Z (Z.abs n) * pow10 (Z.of_nat 1)) = Z.abs n * 10)%Z as ->.
  { pose proof (rne_between (inject_Z (Z.abs n) * pow10 (Z.of_nat 1))
                            (Z.abs n * 10) (Z.abs n * 10)) as H.
    assert (inject_Z (Z.abs n) * pow10 (Z.of_nat 1)
            == inject_Z (Z.abs n * 10))%Q as Heq
      by (rewrite inject_Z_mult; reflexivity).
    assert (rne (inject_Z (Z.abs n) * pow10 (Z.of_nat 1)) ≤ Z.abs n * 10 ∧
            Z.abs n * 10 ≤ rne (inject_Z (Z.abs n) * pow10 (Z.of_nat 1)))%Z;
      [|lia].
    split; apply H; split; rewrite Heq; apply Qle_refl. }
  change (10 ^ Z.of_nat 1)%Z with 10%Z.
  rewrite Z.div_mul, Z.mod_mul by lia.
  rewrite sign_of_inject_Z, string_app_assoc. reflexivity.
Qed.

Lemma has_char_app (c : ascii) (s t : string) :
  has_char c (s ++ t) = has_char c s || has_char c t.
Proof.
  induction s as [|a s IH]; [reflexivity|].
  change (has_char c (String a (s ++ t)%string) =
          has_char c (String a s) || has_char c t).
  cbn [has_char]. rewrite IH. by rewrite orb_assoc.
Qed.

(** A decimal digit is neither a point nor the letter of the exponent. *)
Lemma digit_char_plain (d : Z) :
  (0 ≤ d < 10)%Z →
  Ascii.eqb (digit_char d) "." = false ∧ Ascii.eqb (digit_char d) "e" = false.
Proof.
  intros Hd.
  assert (d = 0 ∨ d = 1 ∨ d = 2 ∨ d = 3 ∨ d = 4 ∨ d = 5 ∨ d = 6 ∨ d = 7 ∨
          d = 8 ∨ d = 9)%Z as H by lia.
  repeat (destruct H as [->|H]; [split; reflexivity|]).
  subst d. split; reflexivity.
Qed.

Lemma has_char_dec_digits (c : ascii) (fuel : nat) (n : Z) (acc : string) :
  (c = "." ∨ c = "e")%char →
  has_char c (dec_digits fuel n acc) = has_char c acc.
Proof.
  intros Hc. revert n acc.
  induction fuel as [|fuel IH]; intros n acc; [reflexivity|].
  cbn [dec_digits].
  assert (has_char c (String (digit_char (n mod 10)) acc) = has_char c acc)
    as Hstep.
  { cbn [has_char].
    destruct (digit_char_plain (n mod 10)) as [Hpoint He];
      [apply Z.mod_pos_bound; lia|].
    destruct Hc as [-> | ->]; [rewrite Hpoint|rewrite He]; reflexivity. }
  destruct (n <? 10)%Z; [exact Hstep|]. rewrite IH. exact Hstep.
Qed.

(** The text of an integer has no point and no exponent. *)
Lemma has_char_int_str (c : ascii) (n : Z) :
  (c = "." ∨ c = "e")%char → has_char c (int_str n) = false.
Proof.
  intros Hc. unfold int_str, dec. rewrite has_char_app.
  rewrite has_char_dec_digits by exact Hc.
  destruct (n <? 0)%Z, Hc as [-> | ->]; reflexivity.
Qed.

Ltac bool_cases :=
  repeat match goal with
         | |- context [has_char ?c ?s] => destruct (has_char c s)
         end;
  reflexivity.

(** The text of a float has a point or an exponent. *)
Lemma has_char_float_str (x : Q) :
  has_char "." (float_str x) || has_char "e" (float_str x) = true.
Proof.
  unfold float_str. destruct (Qeq_bool x 0); [reflexivity|].
  rewrite !has_char_app.
  unfold repr_pos.
  destruct (shortest_from 17 (Qabs x) 1) as [m0 x0].
  destruct (strip_zeros 20 m0 x0) as [m e].
  cbv zeta.
  destruct ((-4 <? Z.of_nat (String.length (dec m)) + e) &&
            (Z.of_nat (String.length (dec m)) + e <=? 16))%Z.
  - destruct (Z.of_nat (String.length (dec m)) + e <=? 0)%Z;
      [|destruct (Z.of_nat (String.length (dec m)) <=?
                  Z.of_nat (String.length (dec m)) + e)%Z].
    + rewrite (has_char_app "." "0.").
      replace (has_char "." "0.") with true by reflexivity.
      bool_cases.
    + rewrite !(has_char_app ".").
      replace (has_char "." ".0") with true by reflexivity.
      bool_cases.
    + rewrite !(has_char_app ".").
      replace (has_char "." ".") with true by reflexivity.
      bool_cases.
  - rewrite !(has_char_app "e").
    replace (has_char "e" "e") with true by reflexivity.
    bool_cases.
Qed.

(** A float is never printed as an integer is. *)
Lemma float_str_not_int_str (x : Q) (n : Z) : float_str x ≠ int_str n.
Proof.
  intros Heq. pose proof (has_char_float_str x) as H.
  rewrite Heq, !has_char_int_str in H by auto. discriminate.
Qed.

(** C3, as amended: the special case is the suffix "M".  A delta of a row
    with the suffix "M" is rendered as a percent: the arrow, the delta
    with one decimal, which is the tenth nearest to it, and a percent
    sign, without the prefix; a delta read as the integer [n] is shown as
    "n.0%".  A delta of a row with any other suffix, the percent sign
    included, or with no suffix, is rendered as the raw number between
    the row's prefix and suffix: a delta read as an integer by its digits
    alone, a delta read as a float by the text of the float, which always
    has a point or an exponent and so is never the text of an integer. *)
Theorem delta_text_rule (row : MetricRow) :
  delta_rule "M" row ∧
  (∃ tenths : Z,
     (Qabs (inject_Z tenths - 10 * Qabs (to_float (delta_cell row))) <= 1 # 2)%Q ∧
     percent_text row =
       (delta_symbol row ++ " " ++
        (sign_of (to_float (delta_cell row)) ++ dec (tenths / 10) ++ "." ++
         String (digit_char (tenths mod 10)) "") ++ "%")%string) ∧
  (∀ n : Z, delta_cell row = Int64 n →
     raw_text row =
       (delta_symbol row ++ " " ++ default "" (m_prefix row) ++
        int_str n ++ default "" (m_suffix row))%string ∧
     ((Z.abs n < 2 ^ 53)%Z →
      percent_text row =
        (delta_symbol row ++ " " ++ int_str n ++ ".0%")%string)) ∧
  (∀ x : Q, delta_cell row = Float64 x →
     raw_text row =
       (delta_symbol row ++ " " ++ default "" (m_prefix row) ++
        float_str x ++ default "" (m_suffix row))%string ∧
     ∀ n : Z, float_str x ≠ int_str n).
Proof.
  split; [|split; [|split]].
  - unfold delta_rule, delta_text, percent_text, raw_text.
    destruct (decide (m_suffix row = Some "M")) as [HM|HM].
    + split; [reflexivity|]. intros Hne. contradiction.
    + split; [intros HM'; contradiction|]. intros _.
      destruct (m_prefix row), (m_suffix row); reflexivity.
  - destruct (format_fixed_1 (to_float (delta_cell row))) as (n & Hn & Htext).
    exists n. split; [exact Hn|]. unfold percent_text. by rewrite Htext.
  - intros n Hcell. unfold raw_text, percent_text. rewrite Hcell.
    split; [reflexivity|]. intros Hn. cbn [to_float].
    rewrite (fl_inject_Z n Hn), format_fixed_1_inject_Z, string_app_assoc.
    reflexivity.
  - intros x Hcell. unfold raw_text. rewrite Hcell.
    split; [reflexivity|]. intros n. apply float_str_not_int_str.
Qed.

Lemma delta_text_rule_witness :
  m_suffix mrr_row = Some "M" ∧ delta_text mrr_row = percent_text mrr_row ∧
  delta_cell whole_delta_row = Int64 5 ∧
  (Z.abs 5 < 2 ^ 53)%Z ∧
  raw_text whole_delta_row = (arrow_up_right ++ " 5x")%string ∧
  percent_text whole_delta_row = (arrow_up_right ++ " 5.0%")%string.
Proof.
  split; [reflexivity|].
  split; [exact (proj1 (proj1 (delta_text_rule mrr_row)) eq_refl)|].
  split; [reflexivity|]. split; [reflexivity|].
  destruct (proj1 (proj2 (proj2 (delta_text_rule whole_delta_row))) 5%Z eq_refl)
    as [Hraw Hpercent].
  split; [exact Hraw|exact (Hpercent eq_refl)].
Defined.

(** The rule with the percent sign as the special case fails both ways:
    the sample row of Monthly Recurring Revenue has the suffix "M" and its
    delta 4.2 is rendered as a percent, not as "$4.2M"; a row with the
    suffix "%" and the delta 4.25 is rendered by the raw number 4.25, not
    by one decimal. *)
Lemma delta_rule_percent_fails :
  ¬ delta_rule "%" mrr_row ∧
  ¬ delta_rule "%" (mkMetric "Net Revenue Retention" 112%Q (dbl 425 100)
                             None (Some "%")).
Proof.
  split.
  - intros [_ Hraw]. specialize (Hraw ltac:(discriminate)).
    vm_compute in Hraw. discriminate.
  - intros [Hpct _]. specialize (Hpct eq_refl).
    vm_compute in Hpct. discriminate.
Qed.

Example delta_text_samples :
  map delta_text sample_metrics =
  [arrow_up_right ++ " 4.2%"; arrow_down_right ++ " -0.9mo";
   arrow_up_right ++ " 4.5%"; arrow_down_right ++ " -0.6%";
   arrow_up_right ++ " 0.5x"]%string.
Proof. vm_compute. reflexivity. Qed.

(** A column of whole numbers is read as integers and printed without a
    point; the same numbers in a column with a fraction elsewhere are
    floats and printed with one. *)
Example delta_text_whole_numbers :
  map delta_text
      [ whole_delta_row;
        mkMetric "LTV:CAC Ratio" (dbl 48 10) 5 None (Some "x");
        mkMetricRow "Monthly Recurring Revenue" (dbl 32 10) (Int64 5)
                    (Some "$") (Some "M");
        mkMetricRow "Net Revenue Retention" 112 (Int64 (-3)) None (Some "%");
        mkMetricRow "Net Promoter Score" 40 (Int64 0) None None;
        mkMetric "Sales Cycle" 60 (dbl 125 10) (Some "~") (Some "d") ] =
  [arrow_up_right ++ " 5x"; arrow_up_right ++ " 5.0x";
   arrow_up_right ++ " 5.0%"; arrow_down_right ++ " -3%";
   arrow_down_right ++ " 0"; arrow_up_right ++ " ~12.5d"]%string.
Proof. vm_compute. reflexivity. Qed.

(* ===================================================================== *)
(** * Further properties *)
(* ===================================================================== *)

(** ** The renderer's entry point: every outcome *)

Lemma build_page_Some metrics channel arr funnel cohort :
  ∃ page, build_page metrics channel arr funnel cohort = Some page.
Proof.
  unfold build_page.
  destruct (create_funnel_sankey_Some funnel) as (ss & ts & -> & _).
  rewrite generate_kpi_cards_html_Some. simpl. eauto.
Qed.

Ltac run_main :=
  cbv [main load_data except_FileNotFoundError bind read_csv print ret
       data_dir output_dir output_file stdout metrics_csv
       channel_acquisition_csv arr_movement_csv funnel_data_csv
       cohort_data_csv additional_metrics_csv file_not_found_message
       ensure_output_directory create_dashboard_html of_option write_output
       raise].

(** The run of the renderer on a world given by its parts. *)
Lemma main_cases (d : DataDir) (odir : bool) (ofile : option Dashboard)
    (out : list string) :
  match first_unavailable 0 (file_statuses d) with
  | None =>
      ∃ metrics channel arr funnel cohort additional page,
        d = mkDataDir (Table metrics) (Table channel) (Table arr)
                      (Table funnel) (Table cohort) (Table additional) ∧
        build_page metrics channel arr funnel cohort = Some page ∧
        main (mkWorld d odir ofile out) =
          (mkWorld d true (Some page)
                   (out ++ [line_creating; line_created; line_open]), Ok tt)
  | Some (k, FileMissing) =>
      main (mkWorld d odir ofile out) =
        (mkWorld d odir ofile
           (out ++ [ line_creating;
                     ("Error loading data: [Errno 2] No such file or directory: '"
                        ++ data_paths !!! k ++ "'")%string;
                     run_generator_message ]), Ok tt)
  | Some (k, _) =>
      main (mkWorld d odir ofile out) =
        (mkWorld d odir ofile (out ++ [line_creating]),
         Raise (ParserError (data_paths !!! k)))
  end.
Proof.
  destruct d as [m c a f co ad]. unfold file_statuses. cbn [metrics_csv
    channel_acquisition_csv arr_movement_csv funnel_data_csv cohort_data_csv
    additional_metrics_csv].
  destruct m as [| |metrics]; cbn [status first_unavailable];
    [run_main; rewrite <- ?app_assoc; reflexivity ..|].
  destruct c as [| |channel]; cbn [status first_unavailable];
    [run_main; rewrite <- ?app_assoc; reflexivity ..|].
  destruct a as [| |arr]; cbn [status first_unavailable];
    [run_main; rewrite <- ?app_assoc; reflexivity ..|].
  destruct f as [| |funnel]; cbn [status first_unavailable];
    [run_main; rewrite <- ?app_assoc; reflexivity ..|].
  destruct co as [| |cohort]; cbn [status first_unavailable];
    [run_main; rewrite <- ?app_assoc; reflexivity ..|].
  destruct ad as [| |additional]; cbn [status first_unavailable];
    [run_main; rewrite <- ?app_assoc; reflexivity ..|].
  destruct (build_page_Some metrics channel arr funnel cohort) as [page Hpage].
  exists metrics, channel, arr, funnel, cohort, additional, page.
  split; [reflexivity|]. split; [exact Hpage|].
  unfold build_page in Hpage.
  destruct (create_funnel_sankey funnel) as [sk|] eqn:Hsk; [|discriminate].
  destruct (generate_kpi_cards_html metrics (create_kpi_indicators metrics))
    as [cards|] eqn:Hcards; [|discriminate].
  simpl in Hpage. injection Hpage as <-.
  run_main. rewrite Hsk, Hcards. cbn. rewrite <- !app_assoc. reflexivity.
Qed.


(** X2: whatever the run ends with, it leaves the six data files as they
    are, only adds lines to the standard output, beginning with the
    opening line, and never removes an output directory or an output file
    that was there. *)
Theorem main_keeps (w : World) :
  data_dir (main w).1 = data_dir w ∧
  (∃ lines, stdout (main w).1 = stdout w ++ line_creating :: lines) ∧
  (output_dir w = true → output_dir (main w).1 = true) ∧
  (is_Some (output_file w) → is_Some (output_file (main w).1)).
Proof.
  destruct w as [d odir ofile out]. cbn [data_dir output_dir output_file stdout].
  pose proof (main_cases d odir ofile out) as H.
  destruct (first_unavailable 0 (file_statuses d)) as [[k []]|].
  - rewrite H. cbn. eauto 10.
  - rewrite H. cbn. eauto 10.
  - rewrite H. cbn. eauto 10.
  - destruct H as (? & ? & ? & ? & ? & ? & page & _ & _ & ->). cbn. eauto 10.
Qed.

(** ** KPI cards: figures and rows *)

Lemma kpi_card_is_Some (figs : list Indicator) (i : nat) (row : MetricRow) :
  is_Some (kpi_card figs i row) ↔ (i < length figs)%nat.
Proof.
  unfold kpi_card. rewrite <- lookup_lt_is_Some.
  destruct (figs !! i); simpl; split; intros [? ?]; eauto; discriminate.
Qed.

(** X4: the card builder fails (with the [IndexError] of
    [indicator_figs[i]]) exactly when it is given fewer figures than
    there are metric rows. *)
Theorem generate_kpi_cards_html_None (metrics : list MetricRow)
    (figs : list Indicator) :
  generate_kpi_cards_html metrics figs = None ↔
  (length figs < length metrics)%nat.
Proof.
  unfold generate_kpi_cards_html.
  rewrite eq_None_not_Some, mapM_is_Some, Forall_lookup.
  split.
  - intros Hnot. destruct (Nat.lt_ge_cases (length figs) (length metrics))
      as [?|Hge]; [done|].
    exfalso. apply Hnot. intros i [j row] Hi.
    rewrite list_lookup_imap in Hi.
    destruct (metrics !! i) as [row'|] eqn:Hrow; simpl in Hi; [|done].
    injection Hi as <- <-. simpl. apply kpi_card_is_Some.
    apply lookup_lt_Some in Hrow. lia.
  - intros Hlt Hall.
    destruct (lookup_lt_is_Some_2 metrics (length figs) Hlt) as [row Hrow].
    specialize (Hall (length figs) (length figs, row)).
    rewrite list_lookup_imap, Hrow in Hall. specialize (Hall eq_refl).
    simpl in Hall. apply kpi_card_is_Some in Hall. lia.
Qed.

(** X5: when the card builder succeeds there is one card per metric row;
    the card at position [i] sits in grid column [i + 1], holds the
    figure at position [i], is the only one to load the plotting library
    when it is the first, and shows the class and the delta text of the
    row at position [i].  Figures beyond the rows are not used. *)
Theorem generate_kpi_cards_html_layout (metrics : list MetricRow)
    (figs : list Indicator) (cards : list KpiCard) :
  generate_kpi_cards_html metrics figs = Some cards →
  length cards = length metrics ∧
  ∀ i card, cards !! i = Some card →
    card_grid_column card = S i ∧
    figs !! i = Some (card_figure card) ∧
    (card_plotlyjs card = Cdn ↔ i = 0%nat) ∧
    ∃ row, metrics !! i = Some row ∧
           card_span_class card = delta_class row ∧
           card_span_text card = delta_text row.
Proof.
  unfold generate_kpi_cards_html. intros Hcards.
  apply mapM_Some in Hcards.
  split.
  - apply Forall2_length in Hcards. rewrite length_imap in Hcards. lia.
  - intros i card Hcard.
    destruct (Forall2_lookup_r _ _ _ _ _ Hcards Hcard) as ([j row] & Hrow & Hmk).
    rewrite list_lookup_imap in Hrow.
    destruct (metrics !! i) as [row'|] eqn:Hrow'; simpl in Hrow; [|done].
    injection Hrow as <- <-. simpl in Hmk. unfold kpi_card in Hmk.
    destruct (figs !! i) as [fig|] eqn:Hfig; simpl in Hmk; [|done].
    injection Hmk as <-. cbn.
    split; [lia|]. split; [reflexivity|]. split.
    + destruct (decide (i = 0%nat)); split; intros; congruence.
    + eauto.
Qed.

Lemma generate_kpi_cards_html_layout_witness :
  ∃ cards,
    generate_kpi_cards_html sample_metrics (create_kpi_indicators sample_metrics)
      = Some cards ∧
    length cards = length sample_metrics.
Proof.
  eexists. split; [apply generate_kpi_cards_html_Some|].
  exact (proj1 (generate_kpi_cards_html_layout _ _ _
                  (generate_kpi_cards_html_Some sample_metrics))).
Defined.

(** ** Funnel (Sankey) builder: sizes, colors and growth *)

Lemma length_unique_from (seen : gset string) (xs : list string) :
  (length (unique_from seen xs) ≤ length xs)%nat.
Proof.
  revert seen. induction xs as [|x xs IH]; intros seen; simpl; [lia|].
  destruct (decide (x ∈ seen)); simpl.
  - specialize (IH seen). lia.
  - specialize (IH ({[x]} ∪ seen)). lia.
Qed.

Lemma length_ravel (funnel : list FunnelEdge) :
  length (ravel funnel) = (2 * length funnel)%nat.
Proof.
  unfold ravel. induction funnel as [|e funnel IH]; simpl; [reflexivity|].
  rewrite IH. lia.
Qed.

Lemma index_lt (l : list string) (x : string) (i : nat) :
  index l x = Some i → (i < length l)%nat.
Proof. intros H. eapply lookup_lt_Some, index_Some_lookup, H. Qed.

Lemma palette_cycle (i : nat) (c : string) :
  (palette ++ palette ++ palette) !! i = Some c →
  (i < 21)%nat ∧ palette !! (i mod 7)%nat = Some c.
Proof.
  intros H. assert (i < 21)%nat as Hi.
  { apply lookup_lt_Some in H. exact H. }
  split; [exact Hi|].
  do 21 (destruct i as [|i]; [exact H|]). simpl in Hi. lia.
Qed.

(** X6: the node colors repeat the seven palette colors in order, and run
    out after three rounds: a diagram with more than 21 labels gets 21
    colors only. *)
Theorem sankey_node_colors (funnel : list FunnelEdge) :
  ∃ sk, create_funnel_sankey funnel = Some sk ∧
    length (node_color sk) = Nat.min (length (node_label sk)) 21 ∧
    ∀ i c, node_color sk !! i = Some c → palette !! (i mod 7)%nat = Some c.
Proof.
  destruct (create_funnel_sankey_Some funnel) as (ss & ts & -> & _).
  eexists. split; [reflexivity|]. cbn [node_color node_label]. split.
  - rewrite length_take. reflexivity.
  - intros i c Hc. apply lookup_take_Some in Hc as [Hc _].
    by apply palette_cycle in Hc as [_ Hc].
Qed.

(** X7: the diagram of a table of [n] edges has [n] links, with the values
    of the table, and at most [2 * n] labels, none for the empty table
    only; every source and target index of a link is a position of the
    label list. *)
Theorem sankey_sizes (funnel : list FunnelEdge) :
  ∃ sk, create_funnel_sankey funnel = Some sk ∧
    (length (node_label sk) ≤ 2 * length funnel)%nat ∧
    (node_label sk = [] ↔ funnel = []) ∧
    length (link_source sk) = length funnel ∧
    length (link_target sk) = length funnel ∧
    link_value sk = map f_value funnel ∧
    Forall (fun s => s < length (node_label sk))%nat (link_source sk) ∧
    Forall (fun t => t < length (node_label sk))%nat (link_target sk).
Proof.
  destruct (create_funnel_sankey_Some funnel) as (ss & ts & -> & Hss & Hts).
  eexists. split; [reflexivity|].
  cbn [node_label link_source link_target link_value].
  split; [|split; [|split; [|split; [|split; [|split]]]]].
  - rewrite <- length_ravel. apply length_unique_from.
  - split.
    + intros Hnil. destruct funnel as [|e funnel]; [reflexivity|].
      exfalso. assert (source e ∈ pd_unique (ravel (e :: funnel))) as Hin.
      { apply elem_of_labels. exists e. split; [left|auto]. }
      rewrite Hnil in Hin. by apply elem_of_nil in Hin.
    + intros ->. reflexivity.
  - symmetry. eapply Forall2_length, Hss.
  - symmetry. eapply Forall2_length, Hts.
  - reflexivity.
  - apply Forall_forall. intros s Hs.
    apply list_elem_of_lookup in Hs as [k Hk].
    destruct (Forall2_lookup_r _ _ _ _ _ Hss Hk) as (e & _ & He).
    by apply index_lt in He.
  - apply Forall_forall. intros t Ht.
    apply list_elem_of_lookup in Ht as [k Hk].
    destruct (Forall2_lookup_r _ _ _ _ _ Hts Hk) as (e & _ & He).
    by apply index_lt in He.
Qed.

Lemma unique_from_app (seen : gset string) (xs ys : list string) :
  unique_from seen (xs ++ ys) =
  unique_from seen xs ++ unique_from (list_to_set xs ∪ seen) ys.
Proof.
  revert seen. induction xs as [|x xs IH]; intros seen; simpl.
  - f_equal. set_solver.
  - destruct (decide (x ∈ seen)) as [Hx|Hx]; rewrite IH; simpl.
    + do 2 f_equal. set_solver.
    + do 3 f_equal. set_solver.
Qed.

Lemma index_app_l (l l' : list string) (x : string) :
  x ∈ l → index (l ++ l') x = index l x.
Proof.
  induction l as [|y l IH]; [by intros ?%elem_of_nil|].
  intros Hx. simpl. destruct (decide (y = x)); [reflexivity|].
  apply elem_of_cons in Hx as [?|Hx]; [congruence|].
  by rewrite IH.
Qed.

(** X8: rows added at the end of the table do not renumber what is there:
    the labels of the longer table begin with the labels of the shorter
    one, and the links of the rows that were there keep their source and
    target indices. *)
Theorem sankey_append_stable (funnel more : list FunnelEdge) :
  ∃ sk sk',
    create_funnel_sankey funnel = Some sk ∧
    create_funnel_sankey (funnel ++ more) = Some sk' ∧
    node_label sk `prefix_of` node_label sk' ∧
    link_source sk `prefix_of` link_source sk' ∧
    link_target sk `prefix_of` link_target sk' ∧
    link_value sk `prefix_of` link_value sk'.
Proof.
  destruct (create_funnel_sankey_Some funnel) as (ss & ts & -> & Hss & Hts).
  destruct (create_funnel_sankey_Some (funnel ++ more))
    as (ss' & ts' & -> & Hss' & Hts').
  eexists _, _. split; [reflexivity|]. split; [reflexivity|].
  cbn [node_label link_source link_target link_value].
  assert (∃ extra, pd_unique (ravel (funnel ++ more)) =
                   pd_unique (ravel funnel) ++ extra) as [extra Hlabels].
  { unfold pd_unique, ravel. rewrite flat_map_app, unique_from_app. eauto. }
  rewrite Hlabels in Hss', Hts'.
  assert (∀ (f : FunnelEdge → string) (xs xs' : list nat),
    (∀ e, e ∈ funnel → f e ∈ pd_unique (ravel funnel)) →
    Forall2 (fun e s => index (pd_unique (ravel funnel)) (f e) = Some s)
            funnel xs →
    Forall2 (fun e s => index (pd_unique (ravel funnel) ++ extra) (f e) = Some s)
            (funnel ++ more) xs' →
    xs `prefix_of` xs') as Hstable.
  { intros f xs xs' Hf Hxs Hxs'.
    apply Forall2_app_inv_l in Hxs' as (xs1 & xs2 & Hxs1 & _ & ->).
    exists xs2. f_equal.
    apply list_eq_same_length with (length funnel).
    - symmetry. eapply Forall2_length, Hxs.
    - symmetry. eapply Forall2_length, Hxs1.
    - intros i s' s _ Hs' Hs.
      destruct (Forall2_lookup_r _ _ _ _ _ Hxs Hs) as (e & He & Hi).
      destruct (Forall2_lookup_r _ _ _ _ _ Hxs1 Hs') as (e' & He' & Hi').
      rewrite He in He'. injection He' as <-.
      rewrite index_app_l in Hi' by (apply Hf; eapply list_elem_of_lookup_2, He).
      congruence. }
  split; [by exists extra|].
  split; [|split].
  - apply (Hstable source); auto.
    intros e He. apply elem_of_labels. eauto.
  - apply (Hstable target); auto.
    intros e He. apply elem_of_labels. eauto.
  - exists (map f_value more). apply map_app.
Qed.

(** ** Stacked area chart: traces and number of ticks *)

(** X9: the area chart has one trace per channel column, in column order;
    the trace at position [i] carries the column's name and values over
    the whole date column, and the palette color at position [i mod 7],
    so that the colors repeat from the eighth column on. *)
Theorem area_traces_cycle (channel : ChannelTable) :
  length (area_traces (create_channel_acquisition_chart channel)) =
    length (ch_columns channel) ∧
  ∀ i tr, area_traces (create_channel_acquisition_chart channel) !! i = Some tr →
    ∃ col, ch_columns channel !! i = Some col ∧
           tr_name tr = col.1 ∧ tr_y tr = col.2 ∧
           tr_x tr = ch_date channel ∧
           palette !! (i mod 7)%nat = Some (tr_fillcolor tr).
Proof.
  unfold create_channel_acquisition_chart. cbn [area_traces]. split.
  - apply length_imap.
  - intros i tr Htr. rewrite list_lookup_imap in Htr.
    destruct (ch_columns channel !! i) as [col|]; simpl in Htr; [|done].
    injection Htr as <-. exists col. cbn [tr_name tr_x tr_y tr_fillcolor].
    repeat split.
    assert (i mod length palette < length palette)%nat as Hlt.
    { apply Nat.mod_upper_bound. discriminate. }
    exact (list_lookup_lookup_total_lt palette _ Hlt).
Qed.

Lemma length_every_third {A} (l : list A) :
  length (every_third l) = ((length l + 2) / 3)%nat.
Proof.
  induction l as [|x|x y|x y z rest IH] using every_third_ind;
    try reflexivity.
  cbn [every_third length]. rewrite IH.
  replace (S (S (S (length rest))) + 2)%nat
    with (length rest + 2 + 1 * 3)%nat by lia.
  rewrite Nat.div_add by lia. lia.
Qed.

Lemma every_third_sublist {A} (l : list A) : every_third l `sublist_of` l.
Proof.
  induction l as [|x|x y|x y z rest IH] using every_third_ind.
  - constructor.
  - reflexivity.
  - cbn. apply sublist_skip, sublist_cons. constructor.
  - cbn [every_third]. by apply sublist_skip, sublist_cons, sublist_cons.
Qed.

(** X10: a date column of [n] dates gets [(n - 2) / 3] ticks, rounded
    down, when [n > 4], and [(n + 2) / 3] ticks otherwise: no tick for an
    empty column only.  The ticks are dates of the column, in the order
    of the column, and there is one tick label per tick. *)
Theorem area_tick_count (channel : ChannelTable) :
  let n := length (ch_date channel) in
  let chart := create_channel_acquisition_chart channel in
  length (area_tickvals chart) =
    (if (4 <? n)%nat then (n - 2) / 3 else (n + 2) / 3)%nat ∧
  length (area_ticktext chart) = length (area_tickvals chart) ∧
  area_tickvals chart `sublist_of` ch_date channel ∧
  (area_tickvals chart = [] ↔ ch_date channel = []).
Proof.
  intros n chart. subst chart. unfold create_channel_acquisition_chart.
  cbn [area_tickvals area_ticktext]. rewrite tick_dates_eq_spec.
  assert (length (tick_dates_spec (ch_date channel)) =
          (if (4 <? n)%nat then (n - 2) / 3 else (n + 2) / 3)%nat) as Hlen.
  { unfold tick_dates_spec. fold n.
    destruct (Nat.ltb_spec 4 n) as [Hn|Hn]; rewrite length_every_third.
    - rewrite length_drop, length_take. fold n. f_equal. lia.
    - reflexivity. }
  split; [exact Hlen|]. split; [apply length_map|]. split.
  - unfold tick_dates_spec. destruct (4 <? length (ch_date channel))%nat.
    + etrans; [apply every_third_sublist|].
      etrans; [apply sublist_drop|apply sublist_take].
    + apply every_third_sublist.
  - rewrite <- !length_zero_iff_nil, Hlen. fold n.
    destruct (Nat.ltb_spec 4 n) as [Hn|Hn].
    + split; [|lia]. intros H0. exfalso.
      assert (1 ≤ (n - 2) / 3)%nat; [|lia].
      apply Nat.div_le_lower_bound; lia.
    + split; [|intros ->; reflexivity]. intros H0.
      destruct n as [|n']; [reflexivity|]. exfalso.
      assert (1 ≤ (S n' + 2) / 3)%nat; [|lia].
      apply Nat.div_le_lower_bound; lia.
Qed.

(** ** Cohort heat map: the twelve months *)


(** ** Generator: the shape of the tables *)

Lemma length_linspace (start stop : Q) (num : nat) :
  length (linspace start stop num) = num.
Proof.
  unfold linspace.
  set (y0 := map (fun i => inject_Z (Z.of_nat i)) (seq 0 num)).
  assert (length y0 = num) as Hy0 by (unfold y0; by rewrite length_map, length_seq).
  match goal with
  | |- length (if _ then take _ (map _ ?y) ++ _ else _) = _ =>
      assert (length y = num) as Hy
  end.
  { destruct (0 <? num - 1)%nat; [destruct (Qeq_bool _ 0)|];
      by rewrite length_map. }
  destruct (Nat.ltb_spec 1 num) as [Hnum|Hnum].
  - rewrite length_app, length_take, length_map, Hy. simpl. lia.
  - by rewrite length_map.
Qed.

Lemma length_cumsum_from (acc : Q) (l : list Q) :
  length (cumsum_from acc l) = length l.
Proof.
  revert acc. induction l as [|x l IH]; intros acc; simpl; [reflexivity|].
  by rewrite IH.
Qed.

Lemma length_cumsum (l : list Q) : length (cumsum l) = length l.
Proof. destruct l; simpl; [reflexivity|]. by rewrite length_cumsum_from. Qed.

Lemma length_cohort_retention (np_sin : Q → Q) (months cohort_idx : nat)
    (early later : list Q) :
  length (cohort_retention np_sin months cohort_idx early later) =
  Nat.min (length early + length later) months.
Proof.
  unfold cohort_retention.
  rewrite length_map, length_zip_with, !length_map, length_cumsum, length_app,
    length_linspace.
  reflexivity.
Qed.

(** X12: with the draws of the sizes that the generator asks for (six
    early and [months - 6] later declines per cohort), the cohort table is
    rectangular: [num_cohorts] cohort names, [months] month columns, and
    [num_cohorts] rows of [months] cells. *)
Theorem cohort_table_shape (np_sin : Q → Q) (num_cohorts months : nat)
    (early later : nat → list Q) :
  (6 ≤ months)%nat →
  (∀ i, length (early i) = 6%nat) →
  (∀ i, length (later i) = (months - 6)%nat) →
  let t := generate_cohort_data np_sin num_cohorts months early later in
  length (co_cohort t) = num_cohorts ∧
  length (co_columns t) = months ∧
  length (co_cells t) = num_cohorts ∧
  Forall (fun row => length row = months) (co_cells t).
Proof.
  intros Hmonths Hearly Hlater t. subst t. unfold generate_cohort_data.
  cbn [co_cohort co_columns co_cells].
  rewrite length_imap, !length_map, !length_seq.
  repeat split.
  apply Forall_forall. intros row Hrow.
  apply list_elem_of_lookup in Hrow as [i Hrow].
  rewrite list_lookup_imap in Hrow.
  destruct (_ !! i); simpl in Hrow; [|done]. injection Hrow as <-.
  rewrite length_cohort_retention, Hearly, Hlater. lia.
Qed.

Lemma cohort_table_shape_witness :
  let t := generate_cohort_data (fun _ => 0%Q) 12 12
             (fun _ => repeat 4%Q 6) (fun _ => repeat 2%Q 6) in
  length (co_cells t) = 12%nat ∧
  Forall (fun row => length row = 12%nat) (co_cells t).
Proof.
  pose proof (cohort_table_shape (fun _ => 0%Q) 12 12
                (fun _ => repeat 4%Q 6) (fun _ => repeat 2%Q 6)
                ltac:(lia) ltac:(reflexivity) ltac:(reflexivity)) as H.
  intros t. exact (conj (proj1 (proj2 (proj2 H))) (proj2 (proj2 (proj2 H)))).
Defined.

Lemma length_channel_raw (np_sin : Q → Q) (n i : nat) (channel : string)
    (noise : list Q) :
  length (channel_raw np_sin n i channel noise) = Nat.min n (length noise).
Proof.
  unfold channel_raw.
  rewrite !length_zip_with.
  match goal with
  | |- context [length (if ?c then _ else _)] =>
      replace (length (if c then _ else _)) with n
  end.
  - rewrite length_map, length_linspace. lia.
  - repeat match goal with
           | |- context [decide ?P] => destruct (decide P)
           end;
      rewrite ?length_map, length_zip_with, length_map, !length_linspace; lia.
Qed.

(** X13: the channel table has the 33 first days of the months from
    March 2022 to November 2024 and the seven channel columns in the
    order of the channel list; with draws of 33 values, every column has
    33 values, one per date. *)
Theorem channel_table_shape_all (np_sin : Q → Q) (noise : nat → list Q) :
  (∀ i, length (noise i) = 33%nat) →
  let t := generate_channel_acquisition np_sin noise in
  length (ch_date t) = 33%nat ∧
  head (ch_date t) = Some (mkDate 2022 Mar 1) ∧
  last (ch_date t) = Some (mkDate 2024 Nov 1) ∧
  Forall (fun d => day d = 1%Z) (ch_date t) ∧
  map fst (ch_columns t) = channels ∧
  Forall (fun column => length column.2 = length (ch_date t)) (ch_columns t).
Proof.
  intros Hnoise t. subst t. unfold generate_channel_acquisition.
  cbn [ch_date ch_columns].
  split; [vm_compute; reflexivity|].
  split; [vm_compute; reflexivity|].
  split; [vm_compute; reflexivity|].
  split; [unfold date_range_MS; apply Forall_forall; intros d Hd;
          apply list_elem_of_In, in_map_iff in Hd as (k & <- & _); reflexivity|].
  split.
  - apply list_eq. intros i.
    unfold channels. rewrite list_lookup_fmap, list_lookup_imap.
    destruct (_ !! i); reflexivity.
  - apply Forall_forall. intros [name column] Hcol.
    apply list_elem_of_lookup in Hcol as [i Hcol].
    rewrite list_lookup_imap in Hcol.
    destruct (channels !! i) as [channel|];
      cbn -[date_range_MS channel_column] in Hcol; [|done].
    injection Hcol as <- <-. cbn [snd]. unfold channel_column.
    rewrite length_map, length_channel_raw, Hnoise.
    vm_compute. reflexivity.
Qed.

Lemma channel_table_shape_all_witness :
  let t := generate_channel_acquisition (fun _ => 0%Q) (fun _ => repeat 0%Q 33) in
  length (ch_date t) = 33%nat ∧ map fst (ch_columns t) = channels.
Proof.
  pose proof (channel_table_shape_all (fun _ => 0%Q) (fun _ => repeat 0%Q 33)
                ltac:(reflexivity)) as H.
  intros t. exact (conj (proj1 H) (proj1 (proj2 (proj2 (proj2 (proj2 H)))))).
Defined.

(** ** Generator: the written values *)

Lemma astype_int_clip_floor (x : Q) :
  (x < inject_Z (2 ^ 63))%Q →
  astype_int (clip x (Some 50%Q) None) = Z.max 50 (Qfloor x).
Proof.
  intros Hx. unfold astype_int.
  pose proof (clip_lower x 50) as Hlo.
  set (y := clip x (Some 50%Q) None) in *.
  assert (Qfloor y = Z.max 50 (Qfloor x)) as Hfloor.
  { unfold y, clip.
    destruct (Q.max_spec x 50) as [[Hlt ->]|[Hle ->]].
    - change (Qfloor 50) with 50%Z.
      assert (Qfloor x ≤ 50)%Z; [|lia].
      change 50%Z with (Qfloor (inject_Z 50)). apply Qfloor_resp_le.
      change (inject_Z 50) with 50%Q. lra.
    - assert (50 ≤ Qfloor x)%Z; [|lia].
      change 50%Z with (Qfloor (inject_Z 50)) at 1. by apply Qfloor_resp_le. }
  rewrite trunc_nonneg by lra. rewrite Hfloor.
  assert (Qfloor x < 2 ^ 63)%Z as H63.
  { pose proof (Qfloor_le x) as Hfl.
    assert (inject_Z (Qfloor x) < inject_Z (2 ^ 63))%Q as Hlt by lra.
    by rewrite <- Zlt_Qlt in Hlt. }
  destruct (Z.leb_spec (- 2 ^ 63) (Z.max 50 (Qfloor x))); [|lia].
  destruct (Z.ltb_spec (Z.max 50 (Qfloor x)) (2 ^ 63)); [reflexivity|lia].
Qed.

(** X14: a written channel value is the raw value rounded down to an
    integer, and 50 when that is less: the floor at 50 is the only change
    that the clip makes, for raw values within the 64-bit range. *)
Theorem channel_column_floor (np_sin : Q → Q) (n i : nat) (channel : string)
    (noise : list Q) :
  Forall (fun x => x < inject_Z (2 ^ 63))%Q (channel_raw np_sin n i channel noise) →
  channel_column np_sin n i channel noise =
  map (fun x => Z.max 50 (Qfloor x)) (channel_raw np_sin n i channel noise).
Proof.
  intros Hraw. unfold channel_column.
  induction Hraw as [|x raw Hx _ IH]; [reflexivity|].
  cbn [map]. rewrite IH. f_equal. by apply astype_int_clip_floor.
Qed.

Lemma channel_column_floor_witness :
  Forall (fun x => x < inject_Z (2 ^ 63))%Q
         (channel_raw (fun _ => 0%Q) 33 6 "Organic Search" (repeat (-600)%Q 33)) ∧
  channel_column (fun _ => 0%Q) 33 6 "Organic Search" (repeat (-600)%Q 33) =
  map (fun x => Z.max 50 (Qfloor x))
      (channel_raw (fun _ => 0%Q) 33 6 "Organic Search" (repeat (-600)%Q 33)).
Proof.
  assert (Forall (fun x => x < inject_Z (2 ^ 63))%Q
            (channel_raw (fun _ => 0%Q) 33 6 "Organic Search"
                         (repeat (-600)%Q 33))) as Hraw.
  { apply Forall_Qltb. vm_compute. reflexivity. }
  split; [exact Hraw|].
  exact (channel_column_floor _ _ _ _ _ Hraw).
Defined.

(** X15: with the four draws in the ranges that the generator asks for,
    the ARR movement table shows a net growth: the ending value exceeds
    the starting value of 28,000,000 by 1,200,000 to 3,700,000 (up to the
    rounding of the sum), new business and expansion being positive and
    contraction and churn negative. *)
Theorem arr_movement_growth (u1 u2 u3 u4 : Q) :
  (1500000 <= u1 <= 2500000)%Q →
  (800000 <= u2 <= 1500000)%Q →
  (200000 <= u3 <= 600000)%Q →
  (100000 <= u4 <= 500000)%Q →
  ∃ new_business expansion contraction churn ending,
    map a_value (generate_arr_movement u1 u2 u3 u4) =
      [28000000%Q; new_business; expansion; contraction; churn; ending] ∧
    (0 < new_business)%Q ∧ (0 < expansion)%Q ∧
    (contraction < 0)%Q ∧ (churn < 0)%Q ∧
    (28000000 + 1199999 <= ending <= 28000000 + 3700001)%Q.
Proof.
  intros H1 H2 H3 H4. unfold generate_arr_movement. cbn [map a_value].
  pose proof (fadd_error 28000000 u1 ltac:(lra)) as E1.
  set (s1 := fadd 28000000 u1) in *.
  pose proof (fadd_error s1 u2 ltac:(lra)) as E2.
  set (s2 := fadd s1 u2) in *.
  pose proof (fadd_error s2 (- u3) ltac:(lra)) as E3.
  set (s3 := fadd s2 (- u3)) in *.
  pose proof (fadd_error s3 (- u4) ltac:(lra)) as E4.
  set (s4 := fadd s3 (- u4)) in *.
  clearbody s1 s2 s3 s4.
  eexists _, _, _, _, _. split; [reflexivity|].
  repeat split; lra.
Qed.

Lemma arr_movement_growth_witness :
  (1500000 <= 2000000 <= 2500000)%Q ∧
  ∃ ending,
    last (map a_value (generate_arr_movement 2000000 1000000 400000 300000))
      = Some ending ∧
    (28000000 + 1199999 <= ending <= 28000000 + 3700001)%Q.
Proof.
  split; [split; discriminate|].
  destruct (arr_movement_growth 2000000 1000000 400000 300000)
    as (nb & ex & co & ch & ending & Hvalues & _ & _ & _ & _ & Hending);
    try (split; discriminate).
  exists ending. split; [|exact Hending].
  rewrite Hvalues. reflexivity.
Defined.

Lemma cohort_retention_range (np_sin : Q → Q) (months cohort_idx : nat)
    (early later : list Q) :
  Forall (fun v => 45 <= v <= 100)%Q
         (cohort_retention np_sin months cohort_idx early later).
Proof.
  unfold cohort_retention. apply Forall_fmap, Forall_forall.
  intros x _. cbv [compose]. apply clip_range. lra.
Qed.

(** X16: the heat map of a generated cohort table never leaves its color
    scale: every cell it shows lies between [zmin = 40] and [zmax = 100],
    whatever the draws, the values of the sine, the number of cohorts and
    the number of months. *)
Theorem generated_heatmap_in_scale (np_sin : Q → Q) (num_cohorts months : nat)
    (early later : nat → list Q) :
  Forall (Forall (fun v => heatmap_zmin <= v <= heatmap_zmax)%Q)
         (hm_z (create_cohort_heatmap
                  (generate_cohort_data np_sin num_cohorts months early later))).
Proof.
  unfold create_cohort_heatmap, generate_cohort_data. cbn [hm_z co_cells].
  apply Forall_fmap, Forall_forall. intros row Hrow. cbv [compose].
  apply list_elem_of_lookup in Hrow as [i Hrow].
  rewrite list_lookup_imap in Hrow.
  destruct (_ !! i); simpl in Hrow; [|done]. injection Hrow as <-.
  apply Forall_take.
  eapply Forall_impl; [apply cohort_retention_range|].
  intros v Hv. unfold heatmap_zmin, heatmap_zmax. simpl in Hv. lra.
Qed.

(** ** From the generator to the renderer *)

Lemma format_value_millions (val : Q) :
  (1000000 <= Qabs val)%Q → format_value val = millions_text val.
Proof.
  intros H. apply Qle_bool_iff in H.
  unfold format_value, millions_text. by rewrite H.
Qed.

Lemma format_value_thousands (val : Q) :
  (Qabs val < 1000000)%Q → format_value val = thousands_text val.
Proof.
  intros H. unfold format_value, thousands_text.
  destruct (Qle_bool 1000000 (Qabs val)) eqn:Hb; [|reflexivity].
  apply Qle_bool_iff in Hb. lra.
Qed.

(** The quotient by 1000 of a value between -600,000 and -100,000 is
    negative after rounding. *)
Lemma fdiv_thousand_negative (u : Q) :
  (100000 <= u <= 600000)%Q → sign_of (fdiv (- u) 1000) = "-".
Proof.
  intros Hu. unfold sign_of, fdiv.
  assert (- (600) <= - u / 1000 <= - (100))%Q as Hq.
  { split.
    - apply Qle_shift_div_l; [reflexivity|]. lra.
    - apply Qle_shift_div_r; [reflexivity|]. lra. }
  pose proof (fl_error (- u / 1000) 10 ltac:(lia)) as Herr.
  change (pow2 10) with 1024%Q in Herr.
  change (pow2 (10 - 54)) with (1 # 17592186044416)%Q in Herr.
  assert (Qabs (- u / 1000) < 1024)%Q as Habs.
  { apply Qabs_Qlt_condition. lra. }
  specialize (Herr Habs). apply Qabs_Qle_condition in Herr.
  assert (fl (- u / 1000) < 0)%Q as Hneg by lra.
  apply Qltb_lt in Hneg. by rewrite Hneg.
Qed.

(** X17: the waterfall of a generated ARR movement table, the draws being
    in the generator's ranges, labels the starting value "$28.0M", new
    business and the ending value in millions, and contraction and churn
    in thousands, rounded to the nearest integer, with a minus sign after
    the dollar sign. *)
Theorem generated_waterfall_text (u1 u2 u3 u4 : Q) :
  (1500000 <= u1 <= 2500000)%Q →
  (800000 <= u2 <= 1500000)%Q →
  (200000 <= u3 <= 600000)%Q →
  (100000 <= u4 <= 500000)%Q →
  ∃ (ending : Q) (contraction churn : Z),
    wf_y (create_arr_waterfall (generate_arr_movement u1 u2 u3 u4)) =
      [28000000%Q; u1; u2; (- u3)%Q; (- u4)%Q; ending] ∧
    wf_text (create_arr_waterfall (generate_arr_movement u1 u2 u3 u4)) =
      [ "$28.0M"; millions_text u1; format_value u2;
        ("$-" ++ dec contraction ++ "K")%string;
        ("$-" ++ dec churn ++ "K")%string;
        millions_text ending ] ∧
    (Qabs (inject_Z contraction - Qabs (fdiv (- u3) 1000)) <= 1 # 2)%Q ∧
    (Qabs (inject_Z churn - Qabs (fdiv (- u4) 1000)) <= 1 # 2)%Q.
Proof.
  intros H1 H2 H3 H4.
  unfold create_arr_waterfall, generate_arr_movement.
  cbn [wf_y wf_text map a_value].
  pose proof (fadd_error 28000000 u1 ltac:(lra)) as E1.
  set (s1 := fadd 28000000 u1) in *.
  pose proof (fadd_error s1 u2 ltac:(lra)) as E2.
  set (s2 := fadd s1 u2) in *.
  pose proof (fadd_error s2 (- u3) ltac:(lra)) as E3.
  set (s3 := fadd s2 (- u3)) in *.
  pose proof (fadd_error s3 (- u4) ltac:(lra)) as E4.
  set (s4 := fadd s3 (- u4)) in *.
  clearbody s1 s2 s3 s4.
  destruct (format_fixed_0 (fdiv (- u3) 1000)) as (co & Hco & Hcotext).
  destruct (format_fixed_0 (fdiv (- u4) 1000)) as (ch & Hch & Hchtext).
  rewrite fdiv_thousand_negative in Hcotext by lra.
  rewrite fdiv_thousand_negative in Hchtext by lra.
  exists s4, co, ch. split; [reflexivity|]. split; [|auto].
  rewrite (format_value_millions u1), (format_value_millions s4),
    (format_value_thousands (- u3)), (format_value_thousands (- u4)).
  - unfold thousands_text. rewrite Hcotext, Hchtext.
    replace (format_value 28000000) with "$28.0M" by (vm_compute; reflexivity).
    reflexivity.
  - rewrite Qabs_opp, Qabs_pos by lra. lra.
  - rewrite Qabs_opp, Qabs_pos by lra. lra.
  - rewrite Qabs_pos by lra. lra.
  - rewrite Qabs_pos by lra. lra.
Qed.

Lemma generated_waterfall_text_witness :
  (1500000 <= 2000000 <= 2500000)%Q ∧
  ∃ ending contraction churn,
    wf_text (create_arr_waterfall
               (generate_arr_movement 2000000 1000000 400000 300000)) =
      [ "$28.0M"; millions_text 2000000; format_value 1000000;
        ("$-" ++ dec contraction ++ "K")%string;
        ("$-" ++ dec churn ++ "K")%string;
        millions_text ending ].
Proof.
  split; [split; discriminate|].
  destruct (generated_waterfall_text 2000000 1000000 400000 300000)
    as (ending & co & ch & _ & Htext & _); try (split; discriminate).
  exists ending, co, ch. exact Htext.
Defined.

Example generated_waterfall_text_sample :
  wf_text (create_arr_waterfall
             (generate_arr_movement 2000000 1000000 400000 300000)) =
  ["$28.0M"; "$2.0M"; "$1.0M"; "$-400K"; "$-300K"; "$30.3M"].
Proof. vm_compute. reflexivity. Qed.




(** None of the strings that the generator writes into the funnel, ARR and
    cohort tables is read back as a missing value, and of the metrics
    table only the empty prefixes are. *)
Example generator_strings_read_back :
  Forall (fun s => read_text_cell s = Some s)
         (ravel generate_funnel_data ++
          map category (generate_arr_movement 0 0 0 0) ++
          map measure (generate_arr_movement 0 0 0 0) ++
          map cohort_name [1; 2; 3; 4; 5; 6; 7; 8; 9; 10; 11; 12]%Z) ∧
  csv_metrics (fun v => v) generate_metrics = sample_metrics ∧
  generate_funnel_data = sample_funnel.
Proof.
  split; [|split; reflexivity].
  apply Forall_forall. intros s Hs.
  repeat (apply elem_of_cons in Hs as [->|Hs]; [vm_compute; reflexivity|]).
  by apply elem_of_nil in Hs.
Qed.




(** ** ARR waterfall: just below one million *)

Lemma ilog2_lower (q : Q) (b : Z) :
  (0 ≤ b)%Z → (pow2 b <= q)%Q → (b ≤ ilog2 q)%Z.
Proof.
  intros Hb Hq. unfold ilog2.
  set (e0 := (Z.log2 (Qnum q) - Z.log2 (Z.pos (Qden q)))%Z).
  destruct (Qltb q (pow2 e0)) eqn:Hbranch.
  - apply Qltb_lt in Hbranch.
    assert (b < e0)%Z; [|lia].
    apply (Qpower_lt_compat_l_inv 2); [|reflexivity].
    fold (pow2 b). fold (pow2 e0). lra.
  - destruct q as [n d]. unfold e0. simpl Qnum. simpl Qden.
    rewrite pow2_inject in Hq by exact Hb.
    unfold Qle in Hq. simpl in Hq.
    assert (0 < 2 ^ b)%Z as Hpow by (apply Z.pow_pos_nonneg; lia).
    pose proof (Z.log2_spec (Z.pos d) ltac:(lia)) as [Hd _].
    pose proof (Z.log2_nonneg (Z.pos d)) as Hd0.
    assert (2 ^ (b + Z.log2 (Z.pos d)) ≤ n)%Z as Hle.
    { rewrite Z.pow_add_r by lia. nia. }
    assert (0 < n)%Z as Hn by nia.
    apply Z.log2_le_pow2 in Hle; [lia|exact Hn].
Qed.

(** Rounding to a double keeps a positive value between two doubles of
    its own binade: [lo] and [hi] are integer multiples of the spacing
    [2 ^ (e - 52)] of the doubles from [2 ^ e] to [2 ^ (e + 1)]. *)
Lemma fl_between (x : Q) (e lo hi : Z) :
  (0 ≤ e)%Z →
  (pow2 e <= x)%Q → (x < pow2 (e + 1))%Q →
  (inject_Z lo * pow2 (e - 52) <= x <= inject_Z hi * pow2 (e - 52))%Q →
  (inject_Z lo * pow2 (e - 52) <= fl x <= inject_Z hi * pow2 (e - 52))%Q.
Proof.
  intros He Hlow Hhigh [Hlo Hhi]. unfold fl.
  pose proof (pow2_pos e) as Hpe.
  destruct (Qeq_bool x 0) eqn:Hzero.
  { apply Qeq_bool_iff in Hzero. lra. }
  assert (Qabs x == x)%Q as Habs by (apply Qabs_pos; lra).
  assert (ilog2 (Qabs x) = e) as ->.
  { assert (e ≤ ilog2 (Qabs x))%Z
      by (apply ilog2_lower; [lia|rewrite Habs; lra]).
    assert (ilog2 (Qabs x) < e + 1)%Z
      by (apply ilog2_upper; [lia|rewrite Habs; lra|rewrite Habs; lra]).
    lia. }
  replace (Z.max (e - 52) (-1074)) with (e - 52)%Z by lia.
  rewrite Qred_correct.
  pose proof (pow2_pos (e - 52)) as Hp.
  assert (inject_Z lo <= x / pow2 (e - 52) <= inject_Z hi)%Q as Hy.
  { split.
    - apply Qle_shift_div_l; [exact Hp|exact Hlo].
    - apply Qle_shift_div_r; [exact Hp|exact Hhi]. }
  apply rne_between in Hy as [Hrlo Hrhi].
  rewrite Zle_Qle in Hrlo, Hrhi.
  set (p := pow2 (e - 52)) in *. set (r := inject_Z (rne (x / p))) in *.
  clearbody p r. split; nra.
Qed.

Lemma rne_half_up_to_1000 (v : Q) :
  (999.5 <= v <= 1000)%Q → rne (v * pow10 0) = 1000%Z.
Proof.
  intros [Hlo Hhi]. change (pow10 0) with 1%Q.
  assert (999.5 <= v * 1 <= 1000)%Q as [Hlo' Hhi'] by (split; lra).
  set (y := (v * 1)%Q) in *. clearbody y. unfold rne.
  assert (999 ≤ Qfloor y)%Z as Hfa.
  { rewrite <- (Qfloor_Z 999). apply Qfloor_resp_le.
    change (inject_Z 999) with 999%Q. lra. }
  assert (Qfloor y ≤ 1000)%Z as Hfb.
  { rewrite <- (Qfloor_Z 1000). apply Qfloor_resp_le.
    change (inject_Z 1000) with 1000%Q. lra. }
  pose proof (Qfloor_le y) as Hfl. pose proof (Qlt_floor y) as Hfu.
  rewrite inject_Z_plus in Hfu. change (inject_Z 1) with 1%Q in Hfu.
  assert (Qfloor y = 999 ∨ Qfloor y = 1000)%Z as [Hf|Hf] by lia;
    rewrite Hf in *.
  - change (inject_Z 999) with 999%Q in *.
    destruct (Qcompare_spec (y - 999) (1 # 2)) as [H|H|H];
      [reflexivity|lra|reflexivity].
  - change (inject_Z 1000) with 1000%Q in *.
    destruct (Qcompare_spec (y - 1000) (1 # 2)) as [H|H|H];
      [lra|reflexivity|lra].
Qed.

(** X19: an amount from 999,500 up to, but not including, 1,000,000 is
    below the threshold of the millions form and rounds to a thousand
    thousands: it is displayed as "$1000K". *)
Theorem format_value_below_million (val : Q) :
  (999500 <= val < 1000000)%Q → format_value val = "$1000K".
Proof.
  intros [Hlo Hhi].
  rewrite format_value_thousands by (rewrite Qabs_pos by lra; lra).
  unfold thousands_text, format_fixed, fdiv.
  assert (999.5 <= val / 1000 < 1000)%Q as [Hqlo Hqhi].
  { split.
    - apply Qle_shift_div_l; [reflexivity|]. lra.
    - apply Qlt_shift_div_r; [reflexivity|]. lra. }
  pose proof (fl_between (val / 1000) 9 (1999 * 2 ^ 42) (1000 * 2 ^ 43)
                ltac:(lia)) as Hfl.
  change (pow2 9) with 512%Q in Hfl.
  change (pow2 (9 + 1)) with 1024%Q in Hfl.
  assert (inject_Z (1999 * 2 ^ 42) * pow2 (9 - 52) == 999.5)%Q as E1
    by (vm_compute; reflexivity).
  assert (inject_Z (1000 * 2 ^ 43) * pow2 (9 - 52) == 1000)%Q as E2
    by (vm_compute; reflexivity).
  rewrite E1, E2 in Hfl.
  specialize (Hfl ltac:(lra) ltac:(lra) ltac:(split; lra)).
  set (q := fl (val / 1000)) in *. clearbody q.
  assert (999.5 <= q <= 1000)%Q as Hq by (split; lra).
  assert (sign_of q = "") as ->.
  { unfold sign_of. destruct (Qltb q 0) eqn:Hneg; [|reflexivity].
    apply Qltb_lt in Hneg. lra. }
  rewrite rne_half_up_to_1000 by (rewrite Qabs_pos by lra; exact Hq).
  vm_compute. reflexivity.
Qed.

Lemma format_value_below_million_witness :
  (999500 <= 999999.99 < 1000000)%Q ∧ format_value 999999.99 = "$1000K".
Proof.
  split; [split; [discriminate|reflexivity]|].
  apply format_value_below_million. split; [discriminate|reflexivity].
Defined.
